(** * Revenue Guardian: the reconciliation engine, embedded and verified

  A shallow embedding of [utils.py], [config.py] and
  [reconciliation_engine.py]: the text normalizer, the fuzzy matcher, the
  risk classifier, the reconciliation loop and the summary statistics;
  and of the analysis that [app.py] runs on them.

  Conventions of the embedding.
  - A Python [str] is a [string]; a character is a code point below 256.
  - A cell of a table is a [value]: a string or a whole number.  A whole
    number in a column is an [int64] of numpy: a sum wraps around at 64
    bits.  A [float] is a binary64 number, kept as the rational that it
    is: the average of a column and the amount that the currency format
    writes are rounded to 53 significant bits.  Fractional amounts in the
    tables are outside the embedding.
  - A pandas row is a dictionary from column names to cells ([gmap]); a
    [DataFrame] is its column labels and its rows.
  - A similarity score is a whole number, as the scorers of the library
    give it and as the matcher hands it back.
  - An exception is a result [Raise e]; the engine object and the records
    written to the module logger are threaded through a state monad. *)

From Stdlib Require Import ZArith QArith Qabs Ascii String.
From stdpp Require Import base tactics option list gmap strings pretty.

Local Open Scope Z_scope.

(** ** Characters and strings as Python sees them *)

Module Text.

Definition code (c : ascii) : N := N_of_ascii c.

Definition between (lo hi : N) (c : ascii) : bool :=
  ((lo <=? code c) && (code c <=? hi))%N.

(** [str.isspace] on one character, which is also the class [\s] of [re]
    for [str] patterns: TAB..CR, FS..US, space, NEL and NBSP. *)
Definition is_space (c : ascii) : bool :=
  between 9 13 c || between 28 32 c
  || (code c =? 133)%N || (code c =? 160)%N.

(** [str.lower] on one character: A-Z, and the upper-case letters of the
    Latin-1 block (all of 192..222 but the multiplication sign). *)
Definition lower_char (c : ascii) : ascii :=
  if between 65 90 c
     || (between 192 222 c && negb (code c =? 215)%N)
  then ascii_of_N (code c + 32) else c.

(** The complement of the class [[^a-z0-9\s]]. *)
Definition is_kept (c : ascii) : bool :=
  between 97 122 c || between 48 57 c || is_space c.

Definition sub_char (c : ascii) : ascii :=
  if is_kept c then c else " "%char.

Fixpoint map (f : ascii → ascii) (s : string) : string :=
  match s with
  | EmptyString => EmptyString
  | String c s' => String (f c) (map f s')
  end.

(** [text.lower()] *)
Definition lower (s : string) : string := map lower_char s.

(** [re.sub(r'[^a-z0-9\s]', ' ', text)] *)
Definition re_sub_special (s : string) : string := map sub_char s.

Definition cons_word (w : string) (ws : list string) : list string :=
  match w with EmptyString => ws | _ => w :: ws end.

(** [split_aux s] is the word that starts at the head of [s] (empty when
    [s] starts with whitespace) and the words after it. *)
Fixpoint split_aux (s : string) : string * list string :=
  match s with
  | EmptyString => (EmptyString, [])
  | String c s' =>
      let '(w, ws) := split_aux s' in
      if is_space c then (EmptyString, cons_word w ws)
      else (String c w, ws)
  end.

(** [text.split()]: the maximal runs of non-whitespace characters. *)
Definition split (s : string) : list string :=
  let '(w, ws) := split_aux s in cons_word w ws.

(** [sep.join(words)] *)
Fixpoint join (sep : string) (ws : list string) : string :=
  match ws with
  | [] => EmptyString
  | [w] => w
  | w :: ws' => w +:+ sep +:+ join sep ws'
  end.

(** [text.strip()] *)
Fixpoint lstrip_space (s : string) : string :=
  match s with
  | EmptyString => EmptyString
  | String c s' => if is_space c then lstrip_space s' else s
  end.

Fixpoint rstrip_space (s : string) : string :=
  match s with
  | EmptyString => EmptyString
  | String c s' =>
      match rstrip_space s' with
      | EmptyString => if is_space c then EmptyString else String c EmptyString
      | r => String c r
      end
  end.

Definition strip (s : string) : string := lstrip_space (rstrip_space s).

(** The body of [normalize_text] once the argument is known to be a
    [str]. *)
Definition normalize_str (text : string) : string :=
  let text := lower text in
  let text := re_sub_special text in
  join " " (split text).

(** *** The transform as the specification words it

    Lowercase; replace every character outside a-z, 0-9 and whitespace
    with one space; collapse each run of whitespace to one space; trim
    both ends.  The alphabets and the whitespace characters are written
    out here, and nothing of the code's side is used. *)

Definition capitals : string := "ABCDEFGHIJKLMNOPQRSTUVWXYZ".
Definition smalls : string := "abcdefghijklmnopqrstuvwxyz".
Definition digits : string := "0123456789".

(** TAB, LF, VT, FF, CR, the four separators FS to US, the space, NEL and
    the no-break space. *)
Definition whitespace_codes : list N :=
  [9; 10; 11; 12; 13; 28; 29; 30; 31; 32; 133; 160]%N.

Definition whitespace (c : ascii) : bool :=
  bool_decide (N_of_ascii c ∈ whitespace_codes).

Fixpoint occurs (c : ascii) (alphabet : string) : bool :=
  match alphabet with
  | EmptyString => false
  | String a alphabet' => Ascii.eqb c a || occurs c alphabet'
  end.

(** The letter of [to] at the place that [c] has in [from]; [c] itself
    when it is not in [from]. *)
Fixpoint translate (from to : string) (c : ascii) : ascii :=
  match from, to with
  | String f from', String t to' =>
      if Ascii.eqb c f then t else translate from' to' c
  | _, _ => c
  end.

Fixpoint lowercase (s : string) : string :=
  match s with
  | EmptyString => EmptyString
  | String c s' => String (translate capitals smalls c) (lowercase s')
  end.

Definition replace_char (c : ascii) : ascii :=
  if occurs c smalls || occurs c digits || whitespace c then c else " "%char.

Fixpoint replace_special (s : string) : string :=
  match s with
  | EmptyString => EmptyString
  | String c s' => String (replace_char c) (replace_special s')
  end.

Definition starts_with_space (s : string) : bool :=
  match s with String c _ => whitespace c | EmptyString => false end.

Fixpoint collapse_ws (s : string) : string :=
  match s with
  | EmptyString => EmptyString
  | String c s' =>
      if whitespace c then
        if starts_with_space s' then collapse_ws s'
        else String " " (collapse_ws s')
      else String c (collapse_ws s')
  end.

Fixpoint lstrip (s : string) : string :=
  match s with
  | EmptyString => EmptyString
  | String c s' => if whitespace c then lstrip s' else s
  end.

Fixpoint rstrip (s : string) : string :=
  match s with
  | EmptyString => EmptyString
  | String c s' =>
      match rstrip s' with
      | EmptyString => if whitespace c then EmptyString else String c EmptyString
      | r => String c r
      end
  end.

Definition trim (s : string) : string := lstrip (rstrip s).

Definition normalize_spec (text : string) : string :=
  trim (collapse_ws (replace_special (lowercase text))).

(** A string is clean when each of its characters is a lower-case letter
    or a digit. *)
Definition is_alnum (c : ascii) : bool :=
  between 97 122 c || between 48 57 c.

Fixpoint all_chars (p : ascii → bool) (s : string) : bool :=
  match s with
  | EmptyString => true
  | String c s' => p c && all_chars p s'
  end.

Definition is_word (w : string) : bool :=
  match w with EmptyString => false | _ => all_chars is_alnum w end.

End Text.

Arguments Text.whitespace : simpl never.


(** ** Python values, exceptions and the two monads *)

(** A cell of a table, or an argument of [normalize_text]: a [str] or an
    [int]. *)
Inductive value : Type :=
  | VStr (s : string)
  | VInt (z : Z).

#[global] Instance value_eq_dec : EqDecision value.
Proof. solve_decision. Defined.

#[global] Instance value_inhabited : Inhabited value := populate (VInt 0).

(** [str(x)] *)
Definition py_str (x : value) : string :=
  match x with
  | VStr s => s
  | VInt z => pretty z
  end.

(** A Python [float] as these functions produce one: a binary64 number,
    kept as the rational that it is, or the not-a-number that [mean] gives
    on an empty column. *)
Inductive pyfloat : Type :=
  | Fin (q : Q)
  | NaN.

(** Exceptions by class.  The text of a message that pandas or the
    formatting machinery writes is kept short; nothing below reads it. *)
Inductive exn : Type :=
  | ValueError (msg : string)
  | TypeError (msg : string)
  | KeyError (key : string)
  | IndexError (msg : string).

(** [str(e)] *)
Definition exn_str (e : exn) : string :=
  match e with
  | ValueError msg | TypeError msg | IndexError msg => msg
  | KeyError key => "'" +:+ key +:+ "'"
  end.

Inductive result (A : Type) : Type :=
  | Ok (a : A)
  | Raise (e : exn).
Arguments Ok {A} a.
Arguments Raise {A} e.

#[global] Instance result_ret : MRet result := @Ok.
#[global] Instance result_bind : MBind result := λ A B f m,
  match m with
  | Ok a => f a
  | Raise e => Raise e
  end.

#[global] Instance result_fmap : FMap result := λ A B f m,
  match m with
  | Ok a => Ok (f a)
  | Raise e => Raise e
  end.

Inductive level : Type := INFO | ERROR.

(** ** Configuration ([config.py]) *)

Definition DEFAULT_MATCH_THRESHOLD : Z := 70.
Definition HIGH_CONFIDENCE_THRESHOLD : Z := 90.
Definition REVIEW_THRESHOLD : Z := 60.

Definition RISK_LEVELS : gmap string string :=
  <["HIGH" := "High"]> (<["MEDIUM" := "Medium"]> (<["LOW" := "Low"]> ∅)).

Definition INVOICE_COLUMNS : gmap string string :=
  <["po_number" := "PO_Number"]> (<["vendor_item" := "Vendor_Item_Name"]>
  (<["unit_cost" := "Unit_Cost"]> (<["invoice_date" := "Invoice_Date"]>
  (<["quantity" := "Quantity"]> ∅)))).

Definition CLINICAL_COLUMNS : gmap string string :=
  <["case_id" := "Case_ID"]> (<["clinical_item" := "Clinical_Item_Desc"]>
  (<["qty_used" := "Qty_Used"]> (<["implant_date" := "Implant_Date"]> ∅))).

(** ** Numbers as numpy and Python hold them

    A whole number in a column is an [int64]: a sum of such numbers wraps
    around.  A [float] is a binary64 number: 53 significant bits, rounded
    to the nearest, a tie to the even one.  The exponent range is left
    out: a sum of [int64] numbers and its quotient by a count stay inside
    it. *)

Definition wrap64 (z : Z) : Z := (z + 2 ^ 63) `mod` 2 ^ 64 - 2 ^ 63.

(** The integer nearest to [x / y], a half going to the even one, for
    [0 <= x] and [0 < y]. *)
Definition round_div (x y : Z) : Z :=
  let q := x / y in
  let r := x `mod` y in
  if (y <? 2 * r) || ((y =? 2 * r) && Z.odd q) then q + 1 else q.

(** [float(z)]: the binary64 number nearest to [z], again a whole number.
    The bits below the 53 leading ones are rounded away. *)
Definition float_of_int (z : Z) : Z :=
  let a := Z.abs z in
  let e := Z.max 0 (Z.log2 a - 52) in
  Z.sgn z * (round_div a (2 ^ e) * 2 ^ e).

(** [2 ^ k <= x / y], for [0 < x] and [0 < y]. *)
Definition reaches_pow2 (k x y : Z) : bool :=
  if 0 <=? k then y * 2 ^ k <=? x else y <=? x * 2 ^ (- k).

(** [x / y] on two binary64 numbers that are whole, for [0 < y]: the
    binary64 number nearest to the quotient.  The exponent [k] of the
    quotient is found first, then the quotient is rounded at the bit
    [k - 52]. *)
Definition float_div (x y : Z) : Q :=
  let a := Z.abs x in
  if a =? 0 then 0%Q else
  let k0 := Z.log2 a - Z.log2 y in
  let k := if reaches_pow2 k0 a y then k0 else k0 - 1 in
  let e := k - 52 in
  if 0 <=? e
  then inject_Z (Z.sgn x * (round_div a (y * 2 ^ e) * 2 ^ e))
  else Qred (Qmake (Z.sgn x * round_div (a * 2 ^ (- e)) y)
                   (Z.to_pos (2 ^ (- e)))).

(** ** Tables *)

Record DataFrame : Type := {
  columns : list string;
  rows : list (gmap string value)
}.

(** Every row has a cell for each column label, and no other: what pandas
    guarantees of a frame. *)
Definition wf_frame (df : DataFrame) : bool :=
  forallb (λ r : gmap string value,
             bool_decide (dom r = list_to_set (columns df))) (rows df).

(** [len(df)] *)
Definition len (df : DataFrame) : nat := length (rows df).

(** [df.empty]: one of the two axes has length 0. *)
Definition empty (df : DataFrame) : bool :=
  match columns df, rows df with
  | [], _ | _, [] => true
  | _, _ => false
  end.

(** [row[c]] *)
Definition getitem (row : gmap string value) (c : string) : result value :=
  match row !! c with
  | Some v => Ok v
  | None => Raise (KeyError c)
  end.

(** [df[c]], and [df[c].tolist()]: the cells of one column, top to bottom. *)
Definition getitem_column (df : DataFrame) (c : string) : result (list value) :=
  if bool_decide (c ∈ columns df)
  then mapM (λ row, getitem row c) (rows df)
  else Raise (KeyError c).

(** [df[df[c] == v]]: the rows whose cell in column [c] equals [v], in
    their order. *)
Definition select_eq (df : DataFrame) (c : string) (v : value)
  : result DataFrame :=
  _ ← getitem_column df c;
  mret {| columns := columns df;
          rows := filter (λ row, row !! c = Some v) (rows df) |}.

(** [a + b] as the reduction behind [Series.sum] meets it: on two numbers
    of a column, the [int64] sum.  (A column that holds text too keeps
    Python's own whole numbers, which do not wrap; the two sums agree
    while the magnitudes add up to less than [2 ^ 63].) *)
Definition py_add (a b : value) : result value :=
  match a, b with
  | VInt x, VInt y => Ok (VInt (wrap64 (x + y)))
  | VStr x, VStr y => Ok (VStr (x +:+ y))
  | VInt _, VStr _ =>
      Raise (TypeError "unsupported operand type(s) for +: 'int' and 'str'")
  | VStr _, VInt _ =>
      Raise (TypeError "can only concatenate str to str")
  end.

Fixpoint reduce_add (acc : value) (cells : list value) : result value :=
  match cells with
  | [] => Ok acc
  | c :: cells' => acc' ← py_add acc c; reduce_add acc' cells'
  end.

(** [series.sum()]: 0 on an empty column, the [int64] total of a numeric
    one, the concatenation of a column of text, and a [TypeError] on a
    mixed one. *)
Definition series_sum (cells : list value) : result value :=
  match cells with
  | [] => Ok (VInt 0)
  | c :: cells' => reduce_add c cells'
  end.

Definition as_int (v : value) : option Z :=
  match v with VInt z => Some z | VStr _ => None end.

Definition sum_Z (zs : list Z) : Z := foldr Z.add 0 zs.

(** The sum that [mean] takes: each number is made a [float] and added
    to the running sum, which is a [float] too.  numpy adds a long column
    in blocks; the order does not matter as long as no addition rounds,
    which is so while the magnitudes add up to no more than [2 ^ 53]. *)
Definition float_sum (zs : list Z) : Z :=
  fold_left (λ acc z, float_of_int (acc + float_of_int z)) zs 0.

(** [series.mean()]: not-a-number on an empty column, the [float] quotient
    of the [float] sum by the count on a numeric one, and a [TypeError] as
    soon as a cell holds text. *)
Definition series_mean (cells : list value) : result pyfloat :=
  match cells with
  | [] => Ok NaN
  | _ =>
      match mapM as_int cells with
      | Some zs => Ok (Fin (float_div (float_sum zs) (Z.of_nat (length zs))))
      | None => Raise (TypeError "Could not convert string to numeric")
      end
  end.

(** [pd.DataFrame(records)]: the labels are the keys of the records, in the
    order [keys] in which the dictionary literal writes them; a frame made
    from no record has no column. *)
Definition DataFrame_of_records (keys : list string)
    (records : list (gmap string value)) : DataFrame :=
  {| columns := match records with [] => [] | _ => keys end;
     rows := records |}.

(** ** Utilities ([utils.py]) *)

Definition normalize_text (text : value) : string :=
  match text with
  | VStr s =>
      let text := Text.lower s in
      let text := Text.re_sub_special text in
      let text := Text.join " " (Text.split text) in
      text
  | _ => py_str text
  end.

(** The iteration order of a Python [set] is not specified; [elements]
    fixes one, and no statement below depends on which. *)
Definition validate_dataframe (df : option DataFrame)
    (required_columns : list string) : bool * option string :=
  match df with
  | None => (false, Some "DataFrame is empty")
  | Some df =>
      if empty df then (false, Some "DataFrame is empty")
      else
        let missing_columns : gset string :=
          list_to_set required_columns ∖ list_to_set (columns df) in
        if bool_decide (missing_columns = ∅) then (true, None)
        else (false, Some ("Missing required columns: "
                           +:+ Text.join ", " (elements missing_columns)))
  end.

(** Digits in groups of three, from a reversed digit string. *)
Fixpoint group3_rev (k : nat) (rev_digits : string) : string :=
  match rev_digits with
  | EmptyString => EmptyString
  | String d rest =>
      match k, rest with
      | 2%nat, String _ _ => String d (String "," (group3_rev 0 rest))
      | _, _ => String d (group3_rev (S k) rest)
      end
  end.

(** [f"{amount:,.2f}"] on an [int]: the format code [f] makes the number
    a [float] first, and writes that one. *)
Definition format_grouped (z : Z) : string :=
  (if z <? 0 then "-" else "")
  +:+ String.rev (group3_rev 0 (String.rev (pretty (Z.abs (float_of_int z)))))
  +:+ ".00".

(** [f"${amount:,.2f}"]; the format code is refused on a [str]. *)
Definition format_currency (amount : value) : result string :=
  match amount with
  | VInt z => Ok ("$" +:+ format_grouped z)
  | VStr _ => Raise (ValueError "Cannot specify ',' with 's'.")
  end.

(** ** The engine object, the logger and the monad of the methods *)

Record ReconciliationEngine : Type := {
  match_threshold : Z
}.

(** What a method can read and write: the engine it is called on, and the
    records handed to the module logger. *)
Record world : Type := {
  this : ReconciliationEngine;
  records : list (level * string)
}.

Definition M (A : Type) : Type := world → world * result A.

#[global] Instance M_ret : MRet M := λ A a w, (w, Ok a).
#[global] Instance M_bind : MBind M := λ A B f m w,
  match m w with
  | (w', Ok a) => f a w'
  | (w', Raise e) => (w', Raise e)
  end.

Definition raise {A} (e : exn) : M A := λ w, (w, Raise e).

Definition lift {A} (r : result A) : M A := λ w, (w, r).

(** [self] *)
Definition self : M ReconciliationEngine := λ w, (w, Ok (this w)).

(** [logger.info(msg)] and [logger.error(msg)] *)
Definition logger (l : level) (msg : string) : M unit := λ w,
  ({| this := this w; records := records w ++ [(l, msg)] |}, Ok tt).

(** [ReconciliationEngine(match_threshold)] *)
Definition init (match_threshold : Z) (log : list (level * string)) : world :=
  {| this := {| match_threshold := match_threshold |};
     records := log ++ [(INFO, "ReconciliationEngine initialized with threshold: "
                               +:+ pretty match_threshold)] |}.

(** [f"{x}"] on an [Optional[str]] *)
Definition fstr (x : option string) : string :=
  match x with Some s => s | None => "None" end.

(** What Python answers when a frame is used where [None] stands. *)
Definition deref (df : option DataFrame) : M DataFrame :=
  match df with
  | Some df => mret df
  | None => raise (TypeError "object of type 'NoneType' has no len()")
  end.

(** ** The engine ([reconciliation_engine.py]) *)

Definition classify_risk (self : ReconciliationEngine) (match_score : Z)
  : string * string :=
  if HIGH_CONFIDENCE_THRESHOLD <=? match_score then
    ("✅ Match Found", RISK_LEVELS !!! "LOW")
  else if match_threshold self <=? match_score then
    ("⚠️ Review Required", RISK_LEVELS !!! "MEDIUM")
  else
    ("❌ REVENUE LEAKAGE", RISK_LEVELS !!! "HIGH").

(** [xs.index(x)]: the first position that holds [x]. *)
Fixpoint index (x : string) (xs : list string) : result nat :=
  match xs with
  | [] => Raise (ValueError (x +:+ " is not in list"))
  | y :: xs' => if bool_decide (y = x) then Ok 0%nat else S <$> index x xs'
  end.

(** [str.isalnum] on one character: the digits and letters of ASCII, and
    the letters, superscripts and fractions of the Latin-1 block. *)
Definition is_alnum_char (c : ascii) : bool :=
  Text.between 48 57 c || Text.between 65 90 c || Text.between 97 122 c
  || (Text.code c =? 170)%N || (Text.code c =? 181)%N
  || (Text.code c =? 186)%N || Text.between 178 179 c
  || (Text.code c =? 185)%N || Text.between 188 190 c
  || Text.between 192 214 c || Text.between 216 246 c
  || Text.between 248 255 c.

(** The processor that thefuzz runs on the query and on each choice before
    it scores them ([utils.full_process], the default [processor] of
    [process.extractOne]): what is not a letter or a digit becomes a
    space, letters become lower case, and both ends are stripped.  Of the
    strings that [fuzzy_match_item] hands over, normal forms are left as
    they are and a printed negative number loses its sign. *)
Definition process_char (c : ascii) : ascii :=
  if is_alnum_char c then Text.lower_char c else " "%char.

Definition full_process (s : string) : string :=
  Text.strip (Text.map process_char s).

Section Matcher.

(** The similarity of two strings: the parameter [scorer] of
    [fuzzy_match_item], by default [fuzz.token_sort_ratio], a whole number
    from 0 to 100. *)
Variable scorer : string → string → Z.

(** One step of the scan: a choice replaces the best so far when it reaches
    the cut-off and beats it strictly. *)
Definition better (best : option (string * Z)) (score : Z) : bool :=
  (0 <=? score) &&
  match best with
  | None => true
  | Some (_, top) => top <? score
  end.

Fixpoint scan (query : string) (best : option (string * Z))
    (choices : list string) : option (string * Z) :=
  match choices with
  | [] => best
  | choice :: choices' =>
      let score := scorer query (full_process choice) in
      scan query (if better best score then Some (choice, score) else best)
           choices'
  end.

(** Modelled from the spec: [process.extractOne] belongs to the library
    thefuzz, which is not part of the repository.  It selects the
    candidate with the maximum score; the first candidate, in input order,
    that attains the maximum wins; on no candidate there is no match.  The
    library's cut-off is 0, and the answer is the choice as it was handed
    over, with the score that the scorer gave it. *)
Definition extractOne (query : string) (choices : list string)
  : option (string * Z) :=
  scan (full_process query) None choices.

(** [xs[i]] *)
Definition getitem_list (xs : list value) (i : nat) : result value :=
  match xs !! i with
  | Some x => Ok x
  | None => Raise (IndexError "list index out of range")
  end.

Definition fuzzy_match_item (vendor_item : value)
    (clinical_items : list value) : result (value * Z) :=
  let normalized_vendor := normalize_text vendor_item in
  let normalized_clinical := normalize_text <$> clinical_items in
  let best_match := extractOne normalized_vendor normalized_clinical in
  match best_match with
  | Some (choice, score) =>
      match_index ← index choice normalized_clinical;
      item ← getitem_list clinical_items match_index;
      mret (item, score)
  | None => mret (VStr "No Match Found", 0)
  end.

Definition result_keys : list string :=
  ["PO_Number"; "Vendor_Item"; "Clinical_Match"; "Confidence_Score";
   "Confidence_Score_Numeric"; "Unit_Cost"; "Cost_At_Risk"; "Status";
   "Risk_Level"].

(** The body of the loop over the invoice rows: the record appended for one
    row. *)
Definition reconcile_row (clinical_descriptions : list value)
    (row : gmap string value) : M (gmap string value) :=
  vendor_item ← lift (getitem row (INVOICE_COLUMNS !!! "vendor_item"));
  '(match_name, match_score) ←
     lift (fuzzy_match_item vendor_item clinical_descriptions);
  engine ← self;
  let '(status, risk_level) := classify_risk engine match_score in
  po_number ← lift (getitem row (INVOICE_COLUMNS !!! "po_number"));
  unit_cost ← lift (getitem row (INVOICE_COLUMNS !!! "unit_cost"));
  unit_cost_text ← lift (format_currency unit_cost);
  cost_at_risk ← lift (getitem row (INVOICE_COLUMNS !!! "unit_cost"));
  mret (<["PO_Number" := po_number]>
       (<["Vendor_Item" := vendor_item]>
       (<["Clinical_Match" := match_name]>
       (<["Confidence_Score" := VStr (pretty match_score +:+ "%")]>
       (<["Confidence_Score_Numeric" := VInt match_score]>
       (<["Unit_Cost" := VStr unit_cost_text]>
       (<["Cost_At_Risk" := cost_at_risk]>
       (<["Status" := VStr status]>
       (<["Risk_Level" := VStr risk_level]> ∅))))))))).

Definition invoice_required : list string :=
  [INVOICE_COLUMNS !!! "po_number"; INVOICE_COLUMNS !!! "vendor_item";
   INVOICE_COLUMNS !!! "unit_cost"].

Definition clinical_required : list string :=
  [CLINICAL_COLUMNS !!! "clinical_item"].

Definition reconcile (df_invoice df_clinical : option DataFrame)
  : M DataFrame :=
  let '(invoice_valid, invoice_error) :=
    validate_dataframe df_invoice invoice_required in
  if negb invoice_valid then
    logger ERROR ("Invoice data validation failed: " +:+ fstr invoice_error);;
    raise (ValueError ("Invalid invoice data: " +:+ fstr invoice_error))
  else
  let '(clinical_valid, clinical_error) :=
    validate_dataframe df_clinical clinical_required in
  if negb clinical_valid then
    logger ERROR ("Clinical data validation failed: " +:+ fstr clinical_error);;
    raise (ValueError ("Invalid clinical data: " +:+ fstr clinical_error))
  else
  invoice ← deref df_invoice;
  clinical ← deref df_clinical;
  logger INFO ("Starting reconciliation: " +:+ pretty (len invoice)
               +:+ " invoices vs " +:+ pretty (len clinical)
               +:+ " clinical logs");;
  clinical_descriptions ←
    lift (getitem_column clinical (CLINICAL_COLUMNS !!! "clinical_item"));
  results ← mapM (reconcile_row clinical_descriptions) (rows invoice);
  let df_results := DataFrame_of_records result_keys results in
  logger INFO ("Reconciliation complete: " +:+ pretty (len df_results)
               +:+ " items processed");;
  mret df_results.

End Matcher.

(** One entry of the summary: the dictionary with the keys [count],
    [total_amount] and [avg_amount]. *)
Record SummaryEntry : Type := {
  count : nat;
  total_amount : value;
  avg_amount : pyfloat
}.

(** The body of the loop over the three risk levels. *)
Definition summarize_level (df_results : DataFrame) (risk_level : string)
    (summary : gmap string SummaryEntry) : result (gmap string SummaryEntry) :=
  filtered ← select_eq df_results "Risk_Level" (VStr risk_level);
  cost ← getitem_column filtered "Cost_At_Risk";
  total ← series_sum cost;
  avg ← (if bool_decide (0 < len filtered)%nat
         then cost ← getitem_column filtered "Cost_At_Risk"; series_mean cost
         else mret (Fin 0));
  mret (<[risk_level := {| count := len filtered;
                           total_amount := total;
                           avg_amount := avg |}]> summary).

Fixpoint for_each {A S} (xs : list A) (body : A → S → result S) (s : S)
  : result S :=
  match xs with
  | [] => Ok s
  | x :: xs' => s' ← body x s; for_each xs' body s'
  end.

Definition generate_summary_stats (df_results : DataFrame)
  : result (gmap string SummaryEntry) :=
  for_each [RISK_LEVELS !!! "HIGH"; RISK_LEVELS !!! "MEDIUM";
            RISK_LEVELS !!! "LOW"]
           (summarize_level df_results) ∅.

(** The dictionary that [calculate_financial_metrics] returns.  Its zero
    entry is written 0.0 in the source; a number is kept by its value. *)
Record FinancialMetrics : Type := {
  fm_total_amount : value;
  fm_count : nat;
  fm_average_amount : pyfloat
}.

(** The body of the [try] block. *)
Definition financial_metrics_try (df : DataFrame) (cost_column : string)
  : result FinancialMetrics :=
  cost ← getitem_column df cost_column;
  total_amount ← series_sum cost;
  let count := len df in
  cost ← getitem_column df cost_column;
  avg_amount ← series_mean cost;
  mret {| fm_total_amount := total_amount;
          fm_count := count;
          fm_average_amount := avg_amount |}.

Definition calculate_financial_metrics (df : DataFrame) (cost_column : string)
  : M FinancialMetrics :=
  match financial_metrics_try df cost_column with
  | Ok metrics => mret metrics
  | Raise e =>
      logger ERROR ("Error calculating financial metrics: " +:+ exn_str e);;
      mret {| fm_total_amount := VInt 0;
              fm_count := 0;
              fm_average_amount := Fin 0 |}
  end.

(** A scorer to run the matcher on: 100 on equal strings, else the share of
    the query's words that the choice has too, in percent, rounded. *)
Definition shared_words (a b : string) : nat :=
  length (filter (λ w, w ∈ Text.split b) (Text.split a)).

Definition word_scorer (a b : string) : Z :=
  if bool_decide (a = b) then 100
  else match Text.split a with
       | [] => 0
       | ws => round_div (100 * Z.of_nat (shared_words a b))
                         (Z.of_nat (length ws))
       end.

(** ** Predicates of the statements *)

(** Each character of [s] is a lower-case letter, a digit or whitespace:
    what the two character maps leave. *)
Definition cleaned (s : string) : Prop :=
  Text.all_chars (λ c, Text.is_alnum c || Text.is_space c) s = true.

(** [w] starts with a character that is not whitespace. *)
Definition headed (w : string) : bool :=
  match w with
  | String c _ => negb (Text.is_space c)
  | EmptyString => false
  end.

(** [sim scorer q c]: the score of candidate [c] for query [q], taken on the
    normalized strings as the library hands them to the scorer. *)
Definition sim (scorer : string → string → Z) (query candidate : value) : Z :=
  scorer (full_process (normalize_text query))
         (full_process (normalize_text candidate)).

(** The score of the string [c] for the string [q] as the specification
    words it: the similarity of the two normal forms. *)
Definition similarity (scorer : string → string → Z) (q c : string) : Z :=
  scorer (Text.normalize_spec q) (Text.normalize_spec c).

(** [c] stands at position [i] of [l], no element of [l] scores more, and
    each element before position [i] scores less. *)
Definition first_max {A} (f : A → Z) (l : list A) (i : nat) (c : A) : Prop :=
  l !! i = Some c
  ∧ (∀ j c', l !! j = Some c' → f c' ≤ f c)
  ∧ (∀ j c', (j < i)%nat → l !! j = Some c' → f c' < f c).

(** The cells of column [c] are all integers. *)
Definition numeric_column (df : DataFrame) (c : string) : bool :=
  forallb (λ r : gmap string value,
             match r !! c with Some (VInt _) => true | _ => false end)
          (rows df).

(** [name] occurs in [msg], as a run of consecutive characters. *)
Fixpoint starts_with (name msg : string) : bool :=
  match name, msg with
  | EmptyString, _ => true
  | String a name', String b msg' => bool_decide (a = b) && starts_with name' msg'
  | String _ _, EmptyString => false
  end.

Fixpoint contains (name msg : string) : bool :=
  starts_with name msg
  || match msg with
     | EmptyString => false
     | String _ msg' => contains name msg'
     end.

Definition occurs_in (name msg : string) : Prop := contains name msg = true.

(** The table is missing ([None]), or empty, or lacks one of the required
    columns. *)
Definition unfit (df : option DataFrame) (required : list string) : bool :=
  match df with
  | Some df =>
      empty df || negb (forallb (λ c, bool_decide (c ∈ columns df)) required)
  | None => true
  end.

(** The world once one more record is logged. *)
Definition logged (l : level) (msg : string) (w : world) : world :=
  {| this := this w; records := records w ++ [(l, msg)] |}.

(** What the message of a failed validation says of the table: that it is
    empty, or else each required column that it lacks, by name. *)
Definition tells_problem (df : option DataFrame) (required : list string)
    (msg : string) : Prop :=
  match df with
  | Some df =>
      if empty df then msg = "DataFrame is empty"
      else ∀ c, c ∈ required → c ∉ columns df → occurs_in c msg
  | None => msg = "DataFrame is empty"
  end.

(** Row [o] of the results carries the invoice row [r]. *)
Definition carries (r o : gmap string value) : Prop :=
  o !! "PO_Number" = r !! "PO_Number"
  ∧ o !! "Vendor_Item" = r !! "Vendor_Item_Name"
  ∧ o !! "Cost_At_Risk" = r !! "Unit_Cost".

(** A computation that reads nothing of the world but the engine, and
    leaves the engine as it found it. *)
Definition engine_only {A} (m : M A) : Prop :=
  ∀ w w', this w = this w' →
    (m w).2 = (m w').2 ∧ this (m w).1 = this w.

(** The three tiers, and what a table of results is: it has the two
    columns that the statistics read, and each row holds one of the three
    tiers and a number as its cost. *)
Definition risk_tiers : list string := ["High"; "Medium"; "Low"].

Definition is_result_row (r : gmap string value) : bool :=
  match r !! "Risk_Level", r !! "Cost_At_Risk" with
  | Some (VStr tier), Some (VInt _) => bool_decide (tier ∈ risk_tiers)
  | _, _ => false
  end.

Definition is_result_table (df : DataFrame) : bool :=
  bool_decide ("Risk_Level" ∈ columns df)
  && bool_decide ("Cost_At_Risk" ∈ columns df)
  && forallb is_result_row (rows df).

Definition cost_of (r : gmap string value) : Z :=
  match r !! "Cost_At_Risk" with Some (VInt z) => z | _ => 0 end.

(** The rows of one tier, and the entry that the summary owes them. *)
Definition tier_rows (df : DataFrame) (tier : string)
  : list (gmap string value) :=
  filter (λ row, row !! "Risk_Level" = Some (VStr tier)) (rows df).

Definition tier_total (df : DataFrame) (tier : string) : Z :=
  sum_Z (cost_of <$> tier_rows df tier).

(** The sum of whole numbers as [int64] arithmetic gives it, and the sum
    of their magnitudes, which bounds every partial sum. *)
Definition int64_sum (zs : list Z) : Z :=
  match zs with
  | [] => 0
  | z :: zs' => fold_left (λ acc x, wrap64 (acc + x)) zs' z
  end.

Definition magnitude (zs : list Z) : Z := sum_Z (Z.abs <$> zs).

Definition tier_entry (df : DataFrame) (tier : string) : SummaryEntry :=
  let costs := cost_of <$> tier_rows df tier in
  {| count := length (tier_rows df tier);
     total_amount := VInt (int64_sum costs);
     avg_amount :=
       match costs with
       | [] => Fin 0
       | _ => Fin (float_div (float_sum costs) (Z.of_nat (length costs)))
       end |}.

Definition zero_metrics : FinancialMetrics :=
  {| fm_total_amount := VInt 0; fm_count := 0; fm_average_amount := Fin 0 |}.

(** ** Tables to run the engine on *)

Definition sample_invoices : DataFrame :=
  {| columns := ["PO_Number"; "Vendor_Item_Name"; "Unit_Cost"];
     rows :=
       [ <["PO_Number" := VStr "PO-1001"]>
           (<["Vendor_Item_Name" := VStr "Stryker Knee System"]>
           (<["Unit_Cost" := VInt 4500]> ∅));
         <["PO_Number" := VStr "PO-1002"]>
           (<["Vendor_Item_Name" := VStr "Zimmer Hip Stem"]>
           (<["Unit_Cost" := VInt 1200]> ∅)) ] |}.

Definition sample_clinical : DataFrame :=
  {| columns := ["Clinical_Item_Desc"];
     rows := [ <["Clinical_Item_Desc" := VStr "stryker knee total"]> ∅ ] |}.

(** An invoice table that lacks the column [Unit_Cost]. *)
Definition invoices_without_cost : DataFrame :=
  {| columns := ["PO_Number"; "Vendor_Item_Name"];
     rows :=
       [ <["PO_Number" := VStr "PO-1001"]>
           (<["Vendor_Item_Name" := VStr "Stryker Knee System"]> ∅) ] |}.

(** The same labels, and no row. *)
Definition no_invoices : DataFrame :=
  {| columns := ["PO_Number"; "Vendor_Item_Name"]; rows := [] |}.

Definition sample_candidates : list value :=
  [VStr "Zimmer Hip"; VStr "stryker knee TOTAL"; VStr "Stryker knee total"].

(** Two candidates with one normal form, behind a candidate that scores
    less. *)
Definition candidate_texts : list string :=
  ["Zimmer Hip"; "stryker knee TOTAL"; "Stryker knee total"].

Definition sample_results : DataFrame :=
  {| columns := ["PO_Number"; "Cost_At_Risk"; "Risk_Level"];
     rows :=
       [ <["PO_Number" := VStr "PO-1001"]>
           (<["Cost_At_Risk" := VInt 4500]> (<["Risk_Level" := VStr "High"]> ∅));
         <["PO_Number" := VStr "PO-1002"]>
           (<["Cost_At_Risk" := VInt 1200]> (<["Risk_Level" := VStr "Low"]> ∅));
         <["PO_Number" := VStr "PO-1003"]>
           (<["Cost_At_Risk" := VInt 300]> (<["Risk_Level" := VStr "High"]> ∅))
       ] |}.


(** A table of results whose one cost is text. *)
Definition text_cost_row : gmap string value :=
  <["PO_Number" := VStr "PO-1001"]>
    (<["Cost_At_Risk" := VStr "n/a"]> (<["Risk_Level" := VStr "High"]> ∅)).

Definition text_cost_results : DataFrame :=
  {| columns := ["PO_Number"; "Cost_At_Risk"; "Risk_Level"];
     rows := [text_cost_row] |}.


(** ** More of the code, and the predicates of its statements *)

(** The words of a text once lowercased and cleaned: what [normalize_text]
    joins. *)
Definition words_of (s : string) : list string :=
  Text.split (Text.re_sub_special (Text.lower s)).

(** The tiers by the risk they stand for. *)
Definition risk_rank (tier : string) : nat :=
  if bool_decide (tier = "High") then 2
  else if bool_decide (tier = "Medium") then 1
  else 0.

(** The record that the loop of [reconcile] appends for an invoice row
    with the given purchase order, item and cost, once the match is
    known. *)
Definition result_record (engine : ReconciliationEngine)
    (po item name : value) (score cost : Z) : gmap string value :=
  <["PO_Number" := po]>
    (<["Vendor_Item" := item]>
    (<["Clinical_Match" := name]>
    (<["Confidence_Score" := VStr (pretty score +:+ "%")]>
    (<["Confidence_Score_Numeric" := VInt score]>
    (<["Unit_Cost" := VStr ("$" +:+ format_grouped cost)]>
    (<["Cost_At_Risk" := VInt cost]>
    (<["Status" := VStr (classify_risk engine score).1]>
    (<["Risk_Level" := VStr (classify_risk engine score).2]> ∅)))))))).

(** Result row [o] is what the engine makes of invoice row [r] against the
    whole list of clinical descriptions. *)
Definition matched (scorer : string → string → Z)
    (engine : ReconciliationEngine) (descriptions : list value)
    (r o : gmap string value) : Prop :=
  ∃ po item name score cost,
    r !! "PO_Number" = Some po
    ∧ r !! "Vendor_Item_Name" = Some item
    ∧ r !! "Unit_Cost" = Some (VInt cost)
    ∧ fuzzy_match_item scorer item descriptions = Ok (name, score)
    ∧ o = result_record engine po item name score cost.

(** The two records that a call of [reconcile] logs when it runs to its
    end. *)
Definition start_record (invoice clinical : DataFrame) : level * string :=
  (INFO, "Starting reconciliation: " +:+ pretty (len invoice)
         +:+ " invoices vs " +:+ pretty (len clinical) +:+ " clinical logs").

Definition complete_record (n : nat) : level * string :=
  (INFO, "Reconciliation complete: " +:+ pretty n +:+ " items processed").

(** Two invoice rows with the same cells in the three columns that the
    engine reads. *)
Definition same_invoice (r1 r2 : gmap string value) : Prop :=
  r1 !! "PO_Number" = r2 !! "PO_Number"
  ∧ r1 !! "Vendor_Item_Name" = r2 !! "Vendor_Item_Name"
  ∧ r1 !! "Unit_Cost" = r2 !! "Unit_Cost".

(** The sample invoices with the two columns that the engine does not
    read. *)
Definition sample_invoices_wide : DataFrame :=
  {| columns := ["PO_Number"; "Vendor_Item_Name"; "Unit_Cost"; "Quantity";
                 "Invoice_Date"];
     rows :=
       [ <["PO_Number" := VStr "PO-1001"]>
           (<["Vendor_Item_Name" := VStr "Stryker Knee System"]>
           (<["Unit_Cost" := VInt 4500]>
           (<["Quantity" := VInt 1]>
           (<["Invoice_Date" := VStr "2025-10-15"]> ∅))));
         <["PO_Number" := VStr "PO-1002"]>
           (<["Vendor_Item_Name" := VStr "Zimmer Hip Stem"]>
           (<["Unit_Cost" := VInt 1200]>
           (<["Quantity" := VInt 2]>
           (<["Invoice_Date" := VStr "2025-10-16"]> ∅)))) ] |}.

(** Invoices whose second cost is text. *)
Definition invoices_text_cost : DataFrame :=
  {| columns := ["PO_Number"; "Vendor_Item_Name"; "Unit_Cost"];
     rows :=
       [ <["PO_Number" := VStr "PO-1001"]>
           (<["Vendor_Item_Name" := VStr "Stryker Knee System"]>
           (<["Unit_Cost" := VInt 4500]> ∅));
         <["PO_Number" := VStr "PO-1002"]>
           (<["Vendor_Item_Name" := VStr "Zimmer Hip Stem"]>
           (<["Unit_Cost" := VStr "n/a"]> ∅)) ] |}.

(** What the statistics need of a table: the two columns, a cell in each
    row for the tier, and a number for the cost of each row that is in one
    of the three tiers.  The other rows may hold anything. *)
Definition summable_row (r : gmap string value) : bool :=
  match r !! "Risk_Level" with
  | Some (VStr tier) =>
      if bool_decide (tier ∈ risk_tiers)
      then match r !! "Cost_At_Risk" with Some (VInt _) => true | _ => false end
      else true
  | Some (VInt _) => true
  | None => false
  end.

Definition summable (df : DataFrame) : bool :=
  bool_decide ("Risk_Level" ∈ columns df)
  && bool_decide ("Cost_At_Risk" ∈ columns df)
  && forallb summable_row (rows df).

(** [avg_amount * count] is [total_amount] up to the rounding of the one
    division: they differ by no more than [|total_amount| / 2 ^ 53]. *)
Definition average_fits (e : SummaryEntry) : Prop :=
  match avg_amount e, total_amount e with
  | Fin q, VInt t =>
      Qle (Qabs (q * inject_Z (Z.of_nat (count e)) - inject_Z t)
           * inject_Z (2 ^ 53))
          (Qabs (inject_Z t))
  | _, _ => False
  end.


(** The cell of column [c] as an integer, 0 when it is not one. *)
Definition cell_int (c : string) (r : gmap string value) : Z :=
  match r !! c with Some (VInt z) => z | _ => 0 end.

(** [s.replace(",", "")] *)
Fixpoint strip_commas (s : string) : string :=
  match s with
  | EmptyString => EmptyString
  | String c s' =>
      if bool_decide (c = ","%char) then strip_commas s'
      else String c (strip_commas s')
  end.

Definition no_comma (s : string) : bool :=
  Text.all_chars (λ c, negb (bool_decide (c = ","%char))) s.

(** A name of printable ASCII characters with no quote and no backslash:
    [repr] writes such a name as it is, between single quotes. *)
Definition plain_name (s : string) : bool :=
  Text.all_chars
    (λ c, Text.between 32 126 c
          && negb (Text.code c =? 39)%N && negb (Text.code c =? 92)%N) s.

(** ** The analysis of the application ([app.py]) *)



(** The filter of the report, by the option of the radio button. *)
Definition apply_filter (filter_option : string) (df_results : DataFrame)
  : result DataFrame :=
  if bool_decide (filter_option = "High Risk Only") then
    select_eq df_results "Risk_Level" (VStr (RISK_LEVELS !!! "HIGH"))
  else if bool_decide (filter_option = "Review Required") then
    select_eq df_results "Risk_Level" (VStr (RISK_LEVELS !!! "MEDIUM"))
  else if bool_decide (filter_option = "Matched Items") then
    select_eq df_results "Risk_Level" (VStr (RISK_LEVELS !!! "LOW"))
  else
    Ok df_results.

(** The options of the filter that select a tier, with their tier. *)
Definition filter_tiers : list (string * string) :=
  [("High Risk Only", "High"); ("Review Required", "Medium");
   ("Matched Items", "Low")].

(** * Verification *)

(** ** The configuration tables, evaluated *)

Lemma risk_low : RISK_LEVELS !!! "LOW" = "Low".
Proof. reflexivity. Qed.

Lemma risk_medium : RISK_LEVELS !!! "MEDIUM" = "Medium".
Proof. reflexivity. Qed.

Lemma risk_high : RISK_LEVELS !!! "HIGH" = "High".
Proof. reflexivity. Qed.

Lemma invoice_required_eq :
  invoice_required = ["PO_Number"; "Vendor_Item_Name"; "Unit_Cost"].
Proof. reflexivity. Qed.

Lemma clinical_required_eq : clinical_required = ["Clinical_Item_Desc"].
Proof. reflexivity. Qed.

(** ** The risk classifier *)

Ltac classify_cases self score :=
  unfold classify_risk, HIGH_CONFIDENCE_THRESHOLD;
  rewrite ?risk_low, ?risk_medium, ?risk_high;
  destruct (Z.leb_spec 90 score);
  destruct (Z.leb_spec (match_threshold self) score).

(** C1. [classify_risk] answers "match found" and Low from 90 upwards (90
    included), else "review required" and Medium from the configured
    threshold upwards, else "revenue leakage" and High; the branches are
    tried in this order. *)
Theorem classify_risk_tiers (self : ReconciliationEngine) (score : Z) :
  HIGH_CONFIDENCE_THRESHOLD = 90 ∧
  (HIGH_CONFIDENCE_THRESHOLD ≤ score →
     classify_risk self score = ("✅ Match Found", "Low")) ∧
  (score < HIGH_CONFIDENCE_THRESHOLD → match_threshold self ≤ score →
     classify_risk self score = ("⚠️ Review Required", "Medium")) ∧
  (score < HIGH_CONFIDENCE_THRESHOLD → score < match_threshold self →
     classify_risk self score = ("❌ REVENUE LEAKAGE", "High")) ∧
  classify_risk {| match_threshold := 70 |} 90 = ("✅ Match Found", "Low").
Proof.
  split; [reflexivity|].
  repeat split; try reflexivity; intros;
    classify_cases self score; unfold HIGH_CONFIDENCE_THRESHOLD in *;
    first [reflexivity | lia].
Qed.

Lemma classify_risk_tiers_witness :
  classify_risk {| match_threshold := 70 |} 95 = ("✅ Match Found", "Low") ∧
  classify_risk {| match_threshold := 70 |} 75
    = ("⚠️ Review Required", "Medium") ∧
  classify_risk {| match_threshold := 70 |} 50
    = ("❌ REVENUE LEAKAGE", "High").
Proof.
  split; [|split].
  - apply (classify_risk_tiers {| match_threshold := 70 |} 95);
      unfold HIGH_CONFIDENCE_THRESHOLD; simpl; lia.
  - apply (classify_risk_tiers {| match_threshold := 70 |} 75);
      unfold HIGH_CONFIDENCE_THRESHOLD; simpl; lia.
  - apply (classify_risk_tiers {| match_threshold := 70 |} 50);
      unfold HIGH_CONFIDENCE_THRESHOLD; simpl; lia.
Defined.

(** C10. The high-confidence branch is tried first, so Medium is the answer
    exactly when the score is at least the configured threshold and below
    90; with a threshold of 90 or more no score is Medium. *)
Theorem classify_risk_medium_iff (self : ReconciliationEngine) (score : Z) :
  ((classify_risk self score).2 = "Medium"
     ↔ match_threshold self ≤ score < HIGH_CONFIDENCE_THRESHOLD) ∧
  (HIGH_CONFIDENCE_THRESHOLD ≤ match_threshold self →
     (classify_risk self score).2 ≠ "Medium").
Proof.
  split.
  - classify_cases self score; simpl; split;
      first [discriminate | lia | reflexivity | idtac]; intros; lia.
  - unfold HIGH_CONFIDENCE_THRESHOLD. intros Hinv.
    classify_cases self score; simpl; first [discriminate | lia].
Qed.

Lemma classify_risk_medium_iff_witness :
  (classify_risk {| match_threshold := 95 |} 92).2 ≠ "Medium" ∧
  ((classify_risk {| match_threshold := 70 |} 75).2 = "Medium"
     ↔ 70 ≤ 75 < 90).
Proof.
  split.
  - apply (classify_risk_medium_iff {| match_threshold := 95 |} 92).
    unfold HIGH_CONFIDENCE_THRESHOLD. simpl. lia.
  - apply (classify_risk_medium_iff {| match_threshold := 70 |} 75).
Defined.

(** ** The text normalizer *)

Lemma append_cons (c : ascii) (s t : string) :
  String c s +:+ t = String c (s +:+ t).
Proof. reflexivity. Qed.

Lemma append_nil_l (s : string) : "" +:+ s = s.
Proof. reflexivity. Qed.

Lemma append_nil_r (s : string) : s +:+ "" = s.
Proof.
  induction s as [|c s IH]; [reflexivity|]. by rewrite append_cons, IH.
Qed.

Lemma append_assoc (s t u : string) : (s +:+ t) +:+ u = s +:+ t +:+ u.
Proof.
  induction s as [|c s IH]; [reflexivity|]. by rewrite !append_cons, IH.
Qed.

(** What the two character maps do, checked on each of the 256 code
    points. *)
Ltac by_cases_on_char c :=
  destruct c as [[] [] [] [] [] [] [] []]; vm_compute; intuition congruence.

Lemma sub_lower_class (c : ascii) :
  Text.is_alnum (Text.sub_char (Text.lower_char c)) = true
  ∨ Text.is_space (Text.sub_char (Text.lower_char c)) = true.
Proof. by_cases_on_char c. Qed.

Lemma alnum_fixed (c : ascii) :
  Text.is_alnum c = true →
  Text.lower_char c = c ∧ Text.sub_char c = c ∧ Text.is_space c = false.
Proof. by_cases_on_char c. Qed.

Lemma space_fixed :
  Text.lower_char " " = " "%char ∧ Text.sub_char " " = " "%char
  ∧ Text.is_space " " = true.
Proof. by vm_compute. Qed.

Lemma whitespace_is_space (c : ascii) : Text.whitespace c = Text.is_space c.
Proof. by_cases_on_char c. Qed.

(** The two character maps of the specification, one after the other, do
    to a character what the two of the code do. *)
Lemma replace_lowercase_char (c : ascii) :
  Text.replace_char (Text.translate Text.capitals Text.smalls c)
  = Text.sub_char (Text.lower_char c).
Proof. by_cases_on_char c. Qed.

Lemma is_kept_alt (c : ascii) :
  Text.is_kept c = Text.is_alnum c || Text.is_space c.
Proof. reflexivity. Qed.

(** *** Splitting and joining *)

Lemma split_aux_head_space (c : ascii) (s : string) :
  Text.is_space c = true →
  Text.split_aux (String c s) = ("", Text.split s).
Proof.
  intros Hc. unfold Text.split. simpl.
  destruct (Text.split_aux s) as [w ws]. by rewrite Hc.
Qed.

Lemma split_aux_head_char (c : ascii) (s : string) :
  Text.is_space c = false →
  Text.split_aux (String c s)
  = (String c (Text.split_aux s).1, (Text.split_aux s).2).
Proof.
  intros Hc. simpl. destruct (Text.split_aux s) as [w ws]. by rewrite Hc.
Qed.

Lemma split_alt (s : string) :
  Text.split s = Text.cons_word (Text.split_aux s).1 (Text.split_aux s).2.
Proof. unfold Text.split. by destruct (Text.split_aux s). Qed.

(** A word in front of a string is split off whole. *)
Lemma split_aux_word_app (w s : string) :
  Text.all_chars Text.is_alnum w = true →
  Text.split_aux (w +:+ s)
  = (w +:+ (Text.split_aux s).1, (Text.split_aux s).2).
Proof.
  induction w as [|c w IH]; intros Hw.
  - rewrite !append_nil_l. by destruct (Text.split_aux s).
  - simpl in Hw. apply andb_true_iff in Hw as [Hc Hw].
    destruct (alnum_fixed c Hc) as (_ & _ & Hsp).
    rewrite append_cons, split_aux_head_char by done.
    by rewrite IH.
Qed.

Lemma is_word_inv (w : string) :
  Text.is_word w = true → w ≠ "" ∧ Text.all_chars Text.is_alnum w = true.
Proof. by destruct w. Qed.

Lemma cons_word_word (w : string) (ws : list string) :
  w ≠ "" → Text.cons_word w ws = w :: ws.
Proof. by destruct w. Qed.

(** Splitting undoes joining with one space, on words. *)
Lemma split_join (ws : list string) :
  Forall (λ w, Text.is_word w = true) ws →
  Text.split (Text.join " " ws) = ws.
Proof.
  induction 1 as [|w ws Hw Hws IH]; [reflexivity|].
  apply is_word_inv in Hw as [Hne Hw].
  destruct ws as [|w' ws].
  - simpl. rewrite <-(append_nil_r w) at 1.
    rewrite split_alt, split_aux_word_app by done. simpl.
    rewrite append_nil_r. by apply cons_word_word.
  - change (Text.join " " (w :: w' :: ws))
      with (w +:+ String " " (Text.join " " (w' :: ws))).
    rewrite split_alt, split_aux_word_app by done.
    rewrite split_aux_head_space by apply space_fixed.
    cbn [fst snd]. rewrite IH, append_nil_r.
    by apply cons_word_word.
Qed.

Lemma cleaned_sub_lower (s : string) :
  cleaned (Text.re_sub_special (Text.lower s)).
Proof.
  unfold cleaned, Text.re_sub_special, Text.lower.
  induction s as [|c s IH]; [reflexivity|].
  cbn [Text.map Text.all_chars]. rewrite IH, andb_true_r.
  destruct (sub_lower_class c) as [-> | ->]; [done|]. apply orb_true_r.
Qed.

Lemma split_aux_words (s : string) :
  cleaned s →
  Text.all_chars Text.is_alnum (Text.split_aux s).1 = true
  ∧ Forall (λ w, Text.is_word w = true) (Text.split_aux s).2.
Proof.
  unfold cleaned. induction s as [|c s IH]; intros Hs; [by split|].
  simpl in Hs. apply andb_true_iff in Hs as [Hc Hs].
  destruct (IH Hs) as [Hw Hws].
  destruct (Text.is_space c) eqn:Hsp.
  - rewrite split_aux_head_space by done. split; [done|].
    rewrite split_alt. destruct (Text.split_aux s) as [w ws]; simpl in *.
    destruct w; [done|]. by constructor.
  - rewrite split_aux_head_char by done. simpl. split; [|done].
    rewrite orb_false_r in Hc. by rewrite Hc, Hw.
Qed.

Lemma split_words (s : string) :
  cleaned s → Forall (λ w, Text.is_word w = true) (Text.split s).
Proof.
  intros Hs. destruct (split_aux_words s Hs) as [Hw Hws].
  rewrite split_alt. destruct (Text.split_aux s) as [w ws]; simpl in *.
  destruct w; [done|]. by constructor.
Qed.

(** Both character maps leave a joined list of words as it is. *)
Lemma all_chars_fixed (s : string) :
  Text.all_chars (λ c, Text.is_alnum c || bool_decide (c = " "%char)) s = true →
  Text.lower s = s ∧ Text.re_sub_special s = s.
Proof.
  induction s as [|c s IH]; intros Hs; [by split|].
  simpl in Hs. apply andb_true_iff in Hs as [Hc Hs].
  destruct (IH Hs) as [Hl Hr]. unfold Text.lower, Text.re_sub_special in *.
  simpl. rewrite Hl, Hr.
  apply orb_true_iff in Hc as [Hc | Hc].
  - destruct (alnum_fixed c Hc) as (-> & -> & _). done.
  - apply bool_decide_eq_true in Hc as ->. done.
Qed.

Lemma all_chars_app (p : ascii → bool) (s t : string) :
  Text.all_chars p (s +:+ t) = Text.all_chars p s && Text.all_chars p t.
Proof.
  induction s as [|c s IH]; [reflexivity|].
  rewrite append_cons. simpl. by rewrite IH, andb_assoc.
Qed.

Lemma all_chars_impl (p q : ascii → bool) (s : string) :
  (∀ c, p c = true → q c = true) →
  Text.all_chars p s = true → Text.all_chars q s = true.
Proof.
  intros Hpq. induction s as [|c s IH]; [done|]. simpl.
  intros [Hc Hs]%andb_true_iff. by rewrite (Hpq c Hc), IH.
Qed.

Lemma join_words_chars (ws : list string) :
  Forall (λ w, Text.is_word w = true) ws →
  Text.all_chars (λ c, Text.is_alnum c || bool_decide (c = " "%char))
    (Text.join " " ws) = true.
Proof.
  induction 1 as [|w ws Hw Hws IH]; [reflexivity|].
  apply is_word_inv in Hw as [_ Hw].
  assert (Text.all_chars
            (λ c, Text.is_alnum c || bool_decide (c = " "%char)) w = true)
    as Hw'.
  { revert Hw. apply all_chars_impl. by intros c ->. }
  destruct ws as [|w' ws]; [done|].
  change (Text.join " " (w :: w' :: ws))
    with (w +:+ String " " (Text.join " " (w' :: ws))).
  rewrite all_chars_app, Hw'. cbn [Text.all_chars andb]. by rewrite IH.
Qed.

Lemma normalize_str_words (ws : list string) :
  Forall (λ w, Text.is_word w = true) ws →
  Text.normalize_str (Text.join " " ws) = Text.join " " ws.
Proof.
  intros Hws. unfold Text.normalize_str.
  destruct (all_chars_fixed _ (join_words_chars ws Hws)) as [-> ->].
  by rewrite split_join.
Qed.

Lemma normalize_str_idempotent (s : string) :
  Text.normalize_str (Text.normalize_str s) = Text.normalize_str s.
Proof.
  unfold Text.normalize_str at 2 3.
  apply normalize_str_words, split_words, cleaned_sub_lower.
Qed.

(** *** The split-and-join pipeline against collapse-and-trim *)

Lemma split_aux_headed (s : string) :
  ((Text.split_aux s).1 = "" ∨ headed (Text.split_aux s).1 = true)
  ∧ Forall (λ w, headed w = true) (Text.split_aux s).2.
Proof.
  induction s as [|c s [Hw Hws]]; [by split; [left|]|].
  destruct (Text.is_space c) eqn:Hc.
  - rewrite split_aux_head_space by done. split; [by left|].
    rewrite split_alt. destruct (Text.split_aux s) as [w ws]; simpl in *.
    destruct Hw as [-> | Hw]; [done|]. destruct w; [done|]. by constructor.
  - rewrite split_aux_head_char by done. simpl. split; [|done].
    right. by rewrite Hc.
Qed.

Lemma split_headed (s : string) :
  Forall (λ w, headed w = true) (Text.split s).
Proof.
  destruct (split_aux_headed s) as [Hw Hws]. rewrite split_alt.
  destruct (Text.split_aux s) as [w ws]; simpl in *.
  destruct Hw as [-> | Hw]; [done|]. destruct w; [done|]. by constructor.
Qed.

Lemma split_aux_first (s : string) :
  (Text.starts_with_space s = true → (Text.split_aux s).1 = "")
  ∧ ((Text.split_aux s).1 = "" →
       Text.starts_with_space s = true ∨ s = "").
Proof.
  destruct s as [|c s]; [by split; [|right]|].
  cbn [Text.starts_with_space]. rewrite whitespace_is_space.
  destruct (Text.is_space c) eqn:Hc.
  - rewrite split_aux_head_space by done. simpl. by split; [|left].
  - rewrite split_aux_head_char by done. simpl. by split.
Qed.

Lemma join_cons (w : string) (ws : list string) :
  Text.join " " (w :: ws)
  = match ws with [] => w | _ => w +:+ String " " (Text.join " " ws) end.
Proof. by destruct ws. Qed.

Lemma join_headed (ws : list string) :
  Forall (λ w, headed w = true) ws → ws ≠ [] →
  headed (Text.join " " ws) = true.
Proof.
  destruct 1 as [|w ws Hw Hws]; [done|]. intros _.
  rewrite join_cons. destruct w as [|c w]; [done|]. by destruct ws.
Qed.

Lemma rstrip_cons_char (c : ascii) (s : string) :
  Text.is_space c = false →
  Text.rstrip (String c s) = String c (Text.rstrip s).
Proof.
  intros Hc. cbn [Text.rstrip]. rewrite whitespace_is_space, Hc.
  by destruct (Text.rstrip s).
Qed.

Lemma rstrip_cons_space (c : ascii) (s : string) :
  Text.is_space c = true →
  Text.rstrip (String c s)
  = match Text.rstrip s with "" => "" | r => String c r end.
Proof. intros Hc. cbn [Text.rstrip]. by rewrite whitespace_is_space, Hc. Qed.

(** After collapsing and trimming on the right, what is left is the words
    joined by one space, behind one space when the text starts with
    whitespace and has a word. *)
Lemma rstrip_collapse (s : string) :
  Text.rstrip (Text.collapse_ws s)
  = (if Text.starts_with_space s
     then match Text.split s with [] => "" | _ => " " end else "")
    +:+ Text.join " " (Text.split s).
Proof.
  induction s as [|c s IH]; [reflexivity|].
  pose proof (split_aux_first s) as [Hfst1 Hfst2].
  pose proof (split_headed s) as Hhd.
  cbn [Text.collapse_ws Text.starts_with_space].
  rewrite (whitespace_is_space c).
  destruct (Text.is_space c) eqn:Hc.
  - assert (Text.split (String c s) = Text.split s) as ->.
    { rewrite (split_alt (String c s)), split_aux_head_space by done. done. }
    destruct (Text.starts_with_space s) eqn:Hs; [done|].
    rewrite rstrip_cons_space, IH, append_nil_l by apply space_fixed.
    destruct (Text.split s) as [|w ws] eqn:Hsplit; [done|].
    pose proof (join_headed (w :: ws) Hhd) as Hj.
    destruct (Text.join " " (w :: ws)); [by discriminate Hj|done].
  - rewrite rstrip_cons_char, IH, append_nil_l by done.
    rewrite (split_alt (String c s)), split_aux_head_char by done.
    cbn [fst snd Text.cons_word]. rewrite join_cons.
    rewrite split_alt in *.
    destruct (Text.split_aux s) as [w ws] eqn:Haux; simpl in *.
    destruct (Text.starts_with_space s) eqn:Hs.
    + rewrite Hfst1 by done. simpl. by destruct ws.
    + rewrite append_nil_l. destruct w as [|d w].
      * destruct Hfst2 as [? | ->]; [done|done|].
        by injection Haux as <-.
      * cbn [Text.cons_word]. rewrite join_cons. by destruct ws.
Qed.

Lemma lstrip_headed (s : string) : headed s = true → Text.lstrip s = s.
Proof.
  destruct s as [|c s]; [done|]. cbn [headed Text.lstrip].
  rewrite whitespace_is_space. by destruct (Text.is_space c).
Qed.

Lemma join_split_trim_collapse (s : string) :
  Text.join " " (Text.split s) = Text.trim (Text.collapse_ws s).
Proof.
  unfold Text.trim. rewrite rstrip_collapse.
  pose proof (split_headed s) as Hhd.
  destruct (Text.split s) as [|w ws] eqn:Hsplit.
  { by destruct (Text.starts_with_space s). }
  pose proof (join_headed (w :: ws) Hhd) as Hj.
  destruct (Text.starts_with_space s).
  - rewrite append_cons, append_nil_l.
    cbn [Text.lstrip]. replace (Text.whitespace " ") with true by done.
    symmetry. by apply lstrip_headed, Hj.
  - rewrite append_nil_l. symmetry. by apply lstrip_headed, Hj.
Qed.

Lemma replace_lowercase (s : string) :
  Text.replace_special (Text.lowercase s)
  = Text.re_sub_special (Text.lower s).
Proof.
  unfold Text.re_sub_special, Text.lower.
  induction s as [|c s IH]; [done|].
  cbn [Text.lowercase Text.replace_special Text.map].
  by rewrite IH, replace_lowercase_char.
Qed.

Lemma alnum_occurs (c : ascii) :
  Text.is_alnum c = Text.occurs c Text.smalls || Text.occurs c Text.digits.
Proof. by_cases_on_char c. Qed.

(** C6. On a string, [normalize_text] lowercases, puts one space for each
    character outside a-z, 0-9 and whitespace, collapses each run of
    whitespace to one space and trims both ends, so that what is left is
    made of lower-case letters, digits and spaces; "Stryker KNEE!!" and
    "stryker knee" have the same normal form. *)
Theorem normalize_text_meets_spec (s : string) :
  normalize_text (VStr s) = Text.normalize_spec s
  ∧ Text.all_chars (λ c, Text.occurs c Text.smalls || Text.occurs c Text.digits
                         || bool_decide (c = " "%char))
      (normalize_text (VStr s)) = true
  ∧ normalize_text (VStr "Stryker KNEE!!") = normalize_text (VStr "stryker knee").
Proof.
  split; [|split; [|by vm_compute]].
  - unfold normalize_text, Text.normalize_spec.
    rewrite replace_lowercase. apply join_split_trim_collapse.
  - eapply all_chars_impl;
      [|apply join_words_chars, split_words, cleaned_sub_lower].
    intros c Hc. by rewrite <-alnum_occurs.
Qed.

(** ** The matcher *)

(** *** The library's processor on what [normalize_text] returns *)

Lemma process_char_fixed (c : ascii) :
  Text.is_alnum c || bool_decide (c = " "%char) = true → process_char c = c.
Proof. by_cases_on_char c. Qed.

Lemma text_map_fixed (f : ascii → ascii) (p : ascii → bool) (s : string) :
  (∀ c, p c = true → f c = c) →
  Text.all_chars p s = true → Text.map f s = s.
Proof.
  intros Hf. induction s as [|c s IH]; [done|]. simpl.
  intros [Hc Hs]%andb_true_iff. by rewrite (Hf c Hc), IH.
Qed.

Lemma rstrip_space_word (w t : string) :
  Text.all_chars Text.is_alnum w = true →
  Text.rstrip_space (w +:+ t) = w +:+ Text.rstrip_space t.
Proof.
  induction w as [|c w IH]; [by rewrite !append_nil_l|].
  cbn [Text.all_chars]. intros [Hc Hw]%andb_true_iff.
  rewrite !append_cons. cbn [Text.rstrip_space]. rewrite (IH Hw).
  destruct (alnum_fixed c Hc) as (_ & _ & ->).
  by destruct (w +:+ Text.rstrip_space t).
Qed.

Lemma word_headed (w : string) : Text.is_word w = true → headed w = true.
Proof.
  destruct w as [|c w]; [done|]. cbn [Text.is_word Text.all_chars headed].
  intros [Hc _]%andb_true_iff. by destruct (alnum_fixed c Hc) as (_ & _ & ->).
Qed.

Lemma rstrip_space_join (ws : list string) :
  Forall (λ w, Text.is_word w = true) ws →
  Text.rstrip_space (Text.join " " ws) = Text.join " " ws.
Proof.
  induction 1 as [|w ws Hw Hws IH]; [done|].
  pose proof (is_word_inv w Hw) as [Hne Hchars].
  rewrite join_cons. destruct ws as [|w' ws].
  - rewrite <-(append_nil_r w) at 1. rewrite rstrip_space_word by done.
    apply append_nil_r.
  - rewrite rstrip_space_word by done. f_equal.
    cbn [Text.rstrip_space]. rewrite IH.
    assert (headed (Text.join " " (w' :: ws)) = true) as Hhd.
    { apply join_headed; [|done]. eapply Forall_impl; [done|].
      apply word_headed. }
    by destruct (Text.join " " (w' :: ws)).
Qed.

Lemma lstrip_space_headed (s : string) :
  headed s = true → Text.lstrip_space s = s.
Proof.
  destruct s as [|c s]; [done|]. cbn [headed Text.lstrip_space].
  by destruct (Text.is_space c).
Qed.

Lemma strip_join (ws : list string) :
  Forall (λ w, Text.is_word w = true) ws →
  Text.strip (Text.join " " ws) = Text.join " " ws.
Proof.
  intros Hws. unfold Text.strip. rewrite rstrip_space_join by done.
  destruct ws as [|w ws]; [done|]. apply lstrip_space_headed.
  apply join_headed; [|done]. eapply Forall_impl; [done|]. apply word_headed.
Qed.

(** A normal form goes through the library's processor as it is. *)
Lemma full_process_normalize (s : string) :
  full_process (normalize_text (VStr s)) = normalize_text (VStr s).
Proof.
  unfold normalize_text, full_process.
  pose proof (split_words _ (cleaned_sub_lower s)) as Hws.
  rewrite (text_map_fixed _ _ _ process_char_fixed (join_words_chars _ Hws)).
  by apply strip_join.
Qed.

Lemma normalize_text_spec (s : string) :
  normalize_text (VStr s) = Text.normalize_spec s.
Proof.
  unfold normalize_text, Text.normalize_spec.
  rewrite replace_lowercase. apply join_split_trim_collapse.
Qed.

Lemma sim_similarity (scorer : string → string → Z) (q c : string) :
  sim scorer (VStr q) (VStr c) = similarity scorer q c.
Proof.
  unfold sim, similarity.
  by rewrite !full_process_normalize, !normalize_text_spec.
Qed.

Section MatcherFacts.

Variable scorer : string → string → Z.

Lemma first_max_snoc_keep {A} (f : A → Z) (pre : list A) i c x :
  first_max f pre i c → f x ≤ f c → first_max f (pre ++ [x]) i c.
Proof.
  intros (Hi & Hmax & Hfirst) Hx. split; [|split].
  - by apply lookup_app_l_Some.
  - intros j c' Hj. apply lookup_app_Some in Hj as [Hj | [_ Hj]].
    + by eapply Hmax.
    + apply list_lookup_singleton_Some in Hj as [_ <-]. done.
  - intros j c' Hlt Hj. apply lookup_app_Some in Hj as [Hj | [Hge _]].
    + by eapply Hfirst.
    + apply lookup_lt_Some in Hi. lia.
Qed.

Lemma first_max_snoc_new {A} (f : A → Z) (pre : list A) x :
  (∀ j c', pre !! j = Some c' → f c' < f x) →
  first_max f (pre ++ [x]) (length pre) x.
Proof.
  intros Hlt. split; [|split].
  - by rewrite lookup_app_r, Nat.sub_diag by lia.
  - intros j c' Hj. apply lookup_app_Some in Hj as [Hj | [_ Hj]].
    + apply Z.lt_le_incl. by eapply Hlt.
    + apply list_lookup_singleton_Some in Hj as [_ <-]. lia.
  - intros j c' Hj Hc'. apply lookup_app_Some in Hc' as [Hc' | [Hge _]].
    + by eapply Hlt.
    + lia.
Qed.

(** The scan keeps the first maximum of what it has read. *)
Lemma scan_first_max (query : string) (choices pre : list string)
    (best : option (string * Z)) :
  let f := λ c, scorer query (full_process c) in
  Forall (λ c, 0 ≤ f c) choices →
  match best with
  | None => pre = []
  | Some (c, s) => s = f c ∧ ∃ i, first_max f pre i c
  end →
  match scan scorer query best choices with
  | None => pre ++ choices = []
  | Some (c, s) => s = f c ∧ ∃ i, first_max f (pre ++ choices) i c
  end.
Proof.
  intros f Hpos. revert pre best.
  induction Hpos as [|x choices Hx Hpos IH]; intros pre best Hbest.
  - simpl. rewrite app_nil_r. destruct best as [[c s]|]; done.
  - simpl. rewrite (cons_middle x pre choices), app_assoc. apply IH.
    unfold better. fold (f x). rewrite (proj2 (Z.leb_le 0 (f x)) Hx). simpl.
    destruct best as [[c s]|].
    + destruct Hbest as (-> & i & Hi).
      destruct (f c <? f x) eqn:Hlt.
      * apply Z.ltb_lt in Hlt.
        split; [done|]. exists (length pre). apply first_max_snoc_new.
        intros j c' Hj. destruct Hi as (_ & Hmax & _).
        specialize (Hmax j c' Hj). lia.
      * apply Z.ltb_ge in Hlt.
        split; [done|]. exists i. by apply first_max_snoc_keep.
    + subst pre. split; [done|]. exists 0%nat.
      by apply (first_max_snoc_new _ []).
Qed.

Lemma extractOne_first_max (query : string) (choices : list string) :
  let f := λ c, scorer (full_process query) (full_process c) in
  Forall (λ c, 0 ≤ f c) choices → choices ≠ [] →
  ∃ i c, extractOne scorer query choices = Some (c, f c)
         ∧ first_max f choices i c.
Proof.
  intros f Hpos Hne. unfold extractOne.
  pose proof (scan_first_max (full_process query) choices [] None Hpos eq_refl)
    as H.
  destruct (scan scorer (full_process query) None choices) as [[c s]|];
    [|done].
  destruct H as (-> & i & Hi). by exists i, c.
Qed.

(** Whatever the scorer, the choice that comes out was put in. *)
Lemma scan_elem_of (query : string) (choices : list string)
    (best : option (string * Z)) c s :
  scan scorer query best choices = Some (c, s) →
  best = Some (c, s) ∨ c ∈ choices.
Proof.
  revert best. induction choices as [|x choices IH]; intros best; simpl.
  - by left.
  - intros [Hbest | Hin]%IH.
    + destruct (better best (scorer query (full_process x))); [|by left].
      injection Hbest as <- <-. right. by left.
    + right. by right.
Qed.

Lemma extractOne_elem_of (query : string) (choices : list string) c s :
  extractOne scorer query choices = Some (c, s) → c ∈ choices.
Proof.
  unfold extractOne. intros Hscan.
  by apply scan_elem_of in Hscan as [?|?].
Qed.

Lemma extractOne_nil (query : string) : extractOne scorer query [] = None.
Proof. reflexivity. Qed.

(** [index] finds the first position of an element of the list. *)
Lemma index_elem_of (x : string) (xs : list string) :
  x ∈ xs →
  ∃ i, index x xs = Ok i ∧ xs !! i = Some x
       ∧ ∀ j, (j < i)%nat → xs !! j ≠ Some x.
Proof.
  induction xs as [|y xs IH]; [by intros ?%elem_of_nil|].
  intros Hin. simpl. case_bool_decide as Hy.
  - subst y. exists 0%nat. split; [done|]. split; [done|]. lia.
  - apply elem_of_cons in Hin as [-> | Hin]; [done|].
    destruct (IH Hin) as (i & -> & Hi & Hfirst).
    exists (S i). split; [done|]. split; [done|].
    intros [|j] Hj; simpl; [congruence|]. apply Hfirst. lia.
Qed.

(** The matcher always answers, and with the sentinel on no candidate. *)
Lemma fuzzy_match_item_total (vendor_item : value) (clinical_items : list value) :
  ∃ name score,
    fuzzy_match_item scorer vendor_item clinical_items = Ok (name, score).
Proof.
  unfold fuzzy_match_item.
  destruct (extractOne _ _ _) as [[c s]|] eqn:Hbest; [|by eexists _, _].
  apply extractOne_elem_of, index_elem_of in Hbest as (i & -> & Hi & _).
  rewrite list_lookup_fmap in Hi. unfold getitem_list. simpl.
  destruct (clinical_items !! i) as [item|]; [|done]. by eexists _, _.
Qed.

Lemma fuzzy_match_item_nil (vendor_item : value) :
  fuzzy_match_item scorer vendor_item [] = Ok (VStr "No Match Found", 0).
Proof. reflexivity. Qed.

(** When every candidate reaches the cut-off, the answer is the first
    candidate whose score is the maximum, as it stands in the list. *)
Lemma fuzzy_match_item_sim (vendor_item : value)
    (clinical_items : list value) :
  Forall (λ c, 0 ≤ sim scorer vendor_item c) clinical_items →
  clinical_items ≠ [] →
  ∃ i item,
    fuzzy_match_item scorer vendor_item clinical_items
      = Ok (item, sim scorer vendor_item item)
    ∧ first_max (sim scorer vendor_item) clinical_items i item.
Proof.
  intros Hpos Hne. unfold fuzzy_match_item.
  destruct (extractOne_first_max (normalize_text vendor_item)
              (normalize_text <$> clinical_items)) as (i & c & -> & Hi).
  { by apply Forall_fmap. }
  { by destruct clinical_items. }
  destruct Hi as (Hi & Hmax & Hfirst).
  destruct (index_elem_of c (normalize_text <$> clinical_items))
    as (k & -> & Hk & Hk_first).
  { by eapply list_elem_of_lookup_2. }
  assert (k = i) as ->.
  { destruct (Nat.lt_trichotomy k i) as [Hlt | [-> | Hgt]]; [|done|].
    - specialize (Hfirst k c Hlt Hk). simpl in Hfirst. lia.
    - by specialize (Hk_first i Hgt). }
  rewrite list_lookup_fmap in Hi. unfold getitem_list. simpl.
  destruct (clinical_items !! i) as [item|] eqn:Hitem; [|done].
  injection Hi as <-. exists i, item. split; [done|].
  split; [done|]. split.
  - intros j c' Hj. apply (Hmax j). by rewrite list_lookup_fmap, Hj.
  - intros j c' Hlt Hj. apply (Hfirst j); [done|].
    by rewrite list_lookup_fmap, Hj.
Qed.

End MatcherFacts.

(** C3. For a query string and a non-empty list of candidate strings whose
    scores reach the library's cut-off 0, [fuzzy_match_item] answers with
    the first candidate, in input order, whose similarity to the query on
    the normalized strings is the maximum, hands that candidate back as it
    stands in the list, not in its normalized form, and gives that
    similarity as the score. *)
Theorem fuzzy_match_item_first_max (scorer : string → string → Z)
    (query : string) (candidates : list string) :
  candidates ≠ [] →
  Forall (λ c, 0 ≤ similarity scorer query c) candidates →
  ∃ i c,
    first_max (similarity scorer query) candidates i c
    ∧ fuzzy_match_item scorer (VStr query) (VStr <$> candidates)
      = Ok (VStr c, similarity scorer query c).
Proof.
  intros Hne Hpos.
  destruct (fuzzy_match_item_sim scorer (VStr query) (VStr <$> candidates))
    as (i & item & -> & Hi & Hmax & Hfirst).
  { apply Forall_fmap. eapply Forall_impl; [done|].
    intros c Hc. simpl. by rewrite sim_similarity. }
  { by destruct candidates. }
  rewrite list_lookup_fmap in Hi.
  destruct (candidates !! i) as [c|] eqn:Hc; [|done].
  injection Hi as <-. exists i, c. rewrite sim_similarity.
  split; [|done]. split; [done|]. split.
  - intros j c' Hj. rewrite <-!sim_similarity. apply (Hmax j).
    by rewrite list_lookup_fmap, Hj.
  - intros j c' Hlt Hj. rewrite <-!sim_similarity. apply (Hfirst j); [done|].
    by rewrite list_lookup_fmap, Hj.
Qed.

(** ** Validation *)

Lemma validate_dataframe_true (df : option DataFrame) (required : list string) err :
  validate_dataframe df required = (true, err) →
  ∃ d, df = Some d ∧ err = None ∧ empty d = false
       ∧ ∀ c, c ∈ required → c ∈ columns d.
Proof.
  unfold validate_dataframe. destruct df as [d|]; [|done].
  destruct (empty d) eqn:Hempty; [done|].
  case_bool_decide as Hmiss; [|done]. intros [= <-].
  exists d. repeat split; try done.
  intros c Hc. destruct (decide (c ∈ columns d)) as [|Hnot]; [done|].
  assert (c ∈ (list_to_set required ∖ list_to_set (columns d) : gset string))
    as Hin by set_solver.
  rewrite Hmiss in Hin. set_solver.
Qed.

Lemma starts_with_app (name post : string) :
  starts_with name (name +:+ post) = true.
Proof.
  induction name as [|c name IH]; [done|].
  rewrite append_cons. simpl. by rewrite bool_decide_eq_true_2, IH.
Qed.

Lemma contains_starts_with (name msg : string) :
  starts_with name msg = true → occurs_in name msg.
Proof. unfold occurs_in. intros H. destruct msg; simpl in *; by rewrite H. Qed.

Lemma occurs_in_prefix (pre name msg : string) :
  occurs_in name msg → occurs_in name (pre +:+ msg).
Proof.
  unfold occurs_in. intros H. induction pre as [|c pre IH]; [done|].
  rewrite append_cons. cbn [contains]. rewrite IH. apply orb_true_r.
Qed.

Lemma join_occurs (sep name : string) (names : list string) :
  name ∈ names → occurs_in name (Text.join sep names).
Proof.
  induction names as [|n names IH]; [by intros ?%elem_of_nil|].
  intros [-> | Hin]%elem_of_cons.
  - apply contains_starts_with. destruct names as [|n' names].
    + simpl. rewrite <-(append_nil_r n) at 2. apply starts_with_app.
    + apply starts_with_app.
  - destruct names as [|n' names]; [by apply elem_of_nil in Hin|].
    change (Text.join sep (n :: n' :: names))
      with (n +:+ sep +:+ Text.join sep (n' :: names)).
    by do 2 apply occurs_in_prefix; apply IH.
Qed.

Lemma validate_dataframe_unfit (df : option DataFrame) (required : list string) :
  (validate_dataframe df required).1 = negb (unfit df required).
Proof.
  unfold validate_dataframe, unfit. destruct df as [d|]; [|done].
  destruct (empty d); [done|]. simpl.
  destruct (forallb _ required) eqn:Hall; simpl.
  - rewrite bool_decide_eq_true_2; [done|].
    rewrite forallb_forall in Hall. apply set_eq. intros c.
    rewrite elem_of_difference, !elem_of_list_to_set. split; [|set_solver].
    intros [Hc Hnot]. destruct Hnot.
    by apply list_elem_of_In, Hall, bool_decide_eq_true in Hc.
  - rewrite bool_decide_eq_false_2; [done|]. intros Hmiss.
    apply not_true_iff_false in Hall. apply Hall, forallb_forall.
    intros c Hc%list_elem_of_In. apply bool_decide_eq_true.
    destruct (decide (c ∈ columns d)) as [|Hnot]; [done|].
    assert (c ∈ (list_to_set required ∖ list_to_set (columns d) : gset string))
      as Hin by set_solver.
    rewrite Hmiss in Hin. set_solver.
Qed.

Lemma validate_dataframe_false (df : option DataFrame) (required : list string) err :
  validate_dataframe df required = (false, err) →
  ∃ msg, err = Some msg ∧ tells_problem df required msg.
Proof.
  unfold validate_dataframe, tells_problem. destruct df as [d|].
  - destruct (empty d) eqn:Hempty.
    + intros [= <-]. by eexists.
    + case_bool_decide as Hmiss; [done|]. intros [= <-].
      eexists. split; [done|]. intros c Hc Hnot.
      apply occurs_in_prefix, join_occurs, elem_of_elements. set_solver.
  - intros [= <-]. by eexists.
Qed.

(** ** The reconciliation loop *)

Lemma invoice_po_number : INVOICE_COLUMNS !!! "po_number" = "PO_Number".
Proof. reflexivity. Qed.

Lemma invoice_vendor_item : INVOICE_COLUMNS !!! "vendor_item" = "Vendor_Item_Name".
Proof. reflexivity. Qed.

Lemma invoice_unit_cost : INVOICE_COLUMNS !!! "unit_cost" = "Unit_Cost".
Proof. reflexivity. Qed.

Lemma clinical_item : CLINICAL_COLUMNS !!! "clinical_item" = "Clinical_Item_Desc".
Proof. reflexivity. Qed.

Lemma mapM_result_Forall2 {A B} (f : A → result B) (R : A → B → Prop)
    (l : list A) :
  Forall (λ x, ∃ y, f x = Ok y ∧ R x y) l →
  ∃ ys, mapM f l = Ok ys ∧ Forall2 R l ys.
Proof.
  induction 1 as [|x l (y & Hy & HR) _ (ys & Hys & HRs)].
  - by exists [].
  - exists (y :: ys). simpl. rewrite Hy. simpl. rewrite Hys. simpl.
    split; [done|]. by constructor.
Qed.

Lemma M_bind_run {A B} (m : M A) (f : A → M B) (w : world) :
  (m ≫= f) w
  = match m w with
    | (w', Ok a) => f a w'
    | (w', Raise e) => (w', Raise e)
    end.
Proof. reflexivity. Qed.

Lemma M_ret_run {A} (a : A) (w : world) : (mret a : M A) w = (w, Ok a).
Proof. reflexivity. Qed.

Lemma lift_run {A} (r : result A) (w : world) : lift r w = (w, r).
Proof. reflexivity. Qed.

Lemma logger_run (l : level) (msg : string) (w : world) :
  logger l msg w = (logged l msg w, Ok tt).
Proof. reflexivity. Qed.

Lemma raise_run {A} (e : exn) (w : world) : raise e w = (w, @Raise A e).
Proof. reflexivity. Qed.

Ltac run_M :=
  repeat (first [rewrite M_bind_run | rewrite M_ret_run | rewrite lift_run
                | rewrite logger_run | rewrite raise_run];
          cbn beta iota).

Lemma mapM_M_Forall2 {A B} (f : A → M B) (R : A → B → Prop)
    (l : list A) (w : world) :
  Forall (λ x, ∃ y, f x w = (w, Ok y) ∧ R x y) l →
  ∃ ys, mapM f l w = (w, Ok ys) ∧ Forall2 R l ys.
Proof.
  induction 1 as [|x l (y & Hy & HR) _ (ys & Hys & HRs)].
  - by exists [].
  - exists (y :: ys). split; [|by constructor].
    cbn [mapM]. rewrite M_bind_run, Hy. fold (mapM f l).
    by rewrite M_bind_run, Hys.
Qed.

Lemma wf_frame_lookup (df : DataFrame) (r : gmap string value) (c : string) :
  wf_frame df = true → r ∈ rows df → c ∈ columns df → is_Some (r !! c).
Proof.
  unfold wf_frame. rewrite forallb_forall. intros Hwf Hr Hc.
  apply list_elem_of_In, Hwf, bool_decide_eq_true in Hr.
  apply elem_of_dom. rewrite Hr. by apply elem_of_list_to_set.
Qed.

Lemma getitem_column_wf (df : DataFrame) (c : string) :
  wf_frame df = true → c ∈ columns df →
  ∃ cells, getitem_column df c = Ok cells
           ∧ Forall2 (λ r v, r !! c = Some v) (rows df) cells.
Proof.
  intros Hwf Hc. unfold getitem_column. rewrite bool_decide_eq_true_2 by done.
  apply mapM_result_Forall2, Forall_forall. intros r Hr.
  destruct (wf_frame_lookup df r c Hwf Hr Hc) as [v Hv].
  exists v. unfold getitem. by rewrite Hv.
Qed.

Lemma classify_risk_tier (engine : ReconciliationEngine) (score : Z) :
  (classify_risk engine score).2 ∈ risk_tiers.
Proof.
  unfold classify_risk. rewrite risk_low, risk_medium, risk_high.
  unfold risk_tiers. repeat case_match; simpl; set_solver.
Qed.

Section ReconcileFacts.

Variable scorer : string → string → Z.

(** One turn of the loop: the row gives one record, which carries it, and
    the world is as it was. *)
Lemma reconcile_row_ok (descriptions : list value) (row : gmap string value)
    (w : world) po item z :
  row !! "PO_Number" = Some po →
  row !! "Vendor_Item_Name" = Some item →
  row !! "Unit_Cost" = Some (VInt z) →
  ∃ o, reconcile_row scorer descriptions row w = (w, Ok o)
       ∧ carries row o ∧ is_result_row o = true.
Proof.
  intros Hpo Hitem Hcost. unfold reconcile_row.
  rewrite invoice_po_number, invoice_vendor_item, invoice_unit_cost.
  unfold getitem. rewrite Hpo, Hitem, Hcost.
  run_M. destruct (fuzzy_match_item_total scorer item descriptions)
    as (name & score & ->).
  run_M. unfold self at 1. run_M.
  destruct (classify_risk (this w) score) as [status risk_level] eqn:Hclass.
  cbn [format_currency]. run_M.
  eexists. split; [reflexivity|]. split.
  - unfold carries. rewrite Hpo, Hitem, Hcost. by simplify_map_eq.
  - pose proof (classify_risk_tier (this w) score) as Htier.
    rewrite Hclass in Htier. unfold is_result_row. simplify_map_eq.
    by apply bool_decide_eq_true.
Qed.

Lemma numeric_column_lookup (df : DataFrame) (c : string) (r : gmap string value) :
  numeric_column df c = true → r ∈ rows df → ∃ z, r !! c = Some (VInt z).
Proof.
  unfold numeric_column. rewrite forallb_forall. intros Hnum Hr.
  apply list_elem_of_In, Hnum in Hr.
  destruct (r !! c) as [[s|z]|]; [done| |done]. by exists z.
Qed.

(** A call on two tables that pass validation, the invoice costs being
    numbers: the loop runs to its end and leaves the engine as it was. *)
Lemma reconcile_valid (invoice clinical : DataFrame) (w : world) :
  wf_frame invoice = true →
  validate_dataframe (Some invoice) invoice_required = (true, None) →
  validate_dataframe (Some clinical) clinical_required = (true, None) →
  wf_frame clinical = true →
  numeric_column invoice "Unit_Cost" = true →
  ∃ out w',
    reconcile scorer (Some invoice) (Some clinical) w = (w', Ok out)
    ∧ this w' = this w
    ∧ columns out = result_keys
    ∧ Forall2 (λ r o, carries r o ∧ is_result_row o = true)
              (rows invoice) (rows out).
Proof.
  intros Hwf Hinv Hclin Hwfc Hnum. unfold reconcile. rewrite Hinv, Hclin.
  apply validate_dataframe_true in Hinv as (? & [= <-] & _ & Hrows & Hcols).
  apply validate_dataframe_true in Hclin as (? & [= <-] & _ & _ & Hcolsc).
  rewrite invoice_required_eq in Hcols. rewrite clinical_required_eq in Hcolsc.
  rewrite clinical_item.
  destruct (getitem_column_wf clinical "Clinical_Item_Desc") as (descs & Hdescs & _);
    [done|apply Hcolsc; set_solver|].
  cbn [negb deref].
  set (w1 := logged INFO ("Starting reconciliation: " +:+ pretty (len invoice)
                          +:+ " invoices vs " +:+ pretty (len clinical)
                          +:+ " clinical logs") w).
  destruct (mapM_M_Forall2 (reconcile_row scorer descs)
              (λ r o, carries r o ∧ is_result_row o = true)
              (rows invoice) w1) as (results & Hmap & Hres).
  { apply Forall_forall. intros r Hr.
    destruct (wf_frame_lookup invoice r "PO_Number") as [po Hpo];
      [done|done|apply Hcols; set_solver|].
    destruct (wf_frame_lookup invoice r "Vendor_Item_Name") as [item Hitem];
      [done|done|apply Hcols; set_solver|].
    destruct (numeric_column_lookup invoice "Unit_Cost" r) as [z Hz];
      [done|done|].
    by eapply reconcile_row_ok. }
  exists (DataFrame_of_records result_keys results),
    (logged INFO ("Reconciliation complete: "
                  +:+ pretty (len (DataFrame_of_records result_keys results))
                  +:+ " items processed") w1).
  split; [|split; [done|split; [|done]]].
  2:{ simpl. destruct results; [|done]. apply Forall2_nil_inv_r in Hres.
      unfold empty in Hrows. rewrite Hres in Hrows.
      by destruct (columns invoice). }
  subst w1. run_M. rewrite Hdescs. run_M. rewrite Hmap. by run_M.
Qed.

End ReconcileFacts.

(** C2. On two valid tables (validation passes, the frames are rectangular
    and the invoice costs are numbers) [reconcile] returns one result row
    for each invoice row, in the order of the invoice rows. *)
Theorem reconcile_one_row_per_invoice (scorer : string → string → Z)
    (invoice clinical : DataFrame) (w : world) :
  wf_frame invoice = true → wf_frame clinical = true →
  validate_dataframe (Some invoice) invoice_required = (true, None) →
  validate_dataframe (Some clinical) clinical_required = (true, None) →
  numeric_column invoice "Unit_Cost" = true →
  ∃ out,
    (reconcile scorer (Some invoice) (Some clinical) w).2 = Ok out
    ∧ len out = len invoice
    ∧ ∀ i r, rows invoice !! i = Some r →
        ∃ o, rows out !! i = Some o ∧ carries r o.
Proof.
  intros Hwf Hwfc Hinv Hclin Hnum.
  destruct (reconcile_valid scorer invoice clinical w)
    as (out & w' & -> & _ & _ & Hrows); try done.
  exists out. split; [done|]. split.
  - unfold len. symmetry. by eapply Forall2_length.
  - intros i r Hr.
    destruct (Forall2_lookup_l _ _ _ _ _ Hrows Hr) as (o & Ho & Hcarries & _).
    by exists o.
Qed.

(** What [reconcile] returns is a table of results, as the statistics
    expect one. *)
Lemma reconcile_result_table (scorer : string → string → Z)
    (invoice clinical : DataFrame) (w : world) :
  wf_frame invoice = true → wf_frame clinical = true →
  validate_dataframe (Some invoice) invoice_required = (true, None) →
  validate_dataframe (Some clinical) clinical_required = (true, None) →
  numeric_column invoice "Unit_Cost" = true →
  ∃ out,
    (reconcile scorer (Some invoice) (Some clinical) w).2 = Ok out
    ∧ is_result_table out = true.
Proof.
  intros Hwf Hwfc Hinv Hclin Hnum.
  destruct (reconcile_valid scorer invoice clinical w)
    as (out & w' & -> & _ & Hcols & Hrows); try done.
  exists out. split; [done|]. unfold is_result_table. rewrite Hcols.
  rewrite !andb_true_iff. split; [by split; vm_compute|].
  apply forallb_forall. intros o Ho%list_elem_of_In.
  apply list_elem_of_lookup in Ho as [i Hi].
  by destruct (Forall2_lookup_r _ _ _ _ _ Hrows Hi) as (r & _ & _ & ?).
Qed.

(** ** What a call reads and writes of the world *)

Lemma self_run (w : world) : self w = (w, Ok (this w)).
Proof. reflexivity. Qed.

Lemma engine_only_ret {A} (a : A) : engine_only (mret a).
Proof. by intros w w' Hw. Qed.

Lemma engine_only_lift {A} (r : result A) : engine_only (lift r).
Proof. by intros w w' Hw. Qed.

Lemma engine_only_raise {A} (e : exn) : engine_only (@raise A e).
Proof. by intros w w' Hw. Qed.

Lemma engine_only_self : engine_only self.
Proof. intros w w' Hw. rewrite !self_run. simpl. by rewrite Hw. Qed.

Lemma engine_only_logger (l : level) (msg : string) :
  engine_only (logger l msg).
Proof. by intros w w' Hw. Qed.

Lemma engine_only_bind {A B} (m : M A) (k : A → M B) :
  engine_only m → (∀ a, engine_only (k a)) → engine_only (m ≫= k).
Proof.
  intros Hm Hk w w' Hw. rewrite !M_bind_run.
  destruct (Hm w w' Hw) as [Hres Hthis].
  destruct (Hm w' w' eq_refl) as [_ Hthis'].
  destruct (m w) as [w1 r1], (m w') as [w1' r1']; simpl in *. subst r1'.
  destruct r1 as [a|e]; [|done].
  destruct (Hk a w1 w1') as [Hres Hthis1]; [congruence|].
  split; [done|congruence].
Qed.

Lemma engine_only_mapM {A B} (f : A → M B) (l : list A) :
  (∀ x, engine_only (f x)) → engine_only (mapM f l).
Proof.
  intros Hf. induction l as [|x l IH]; [apply engine_only_ret|].
  cbn [mapM]. apply engine_only_bind; [done|]. intros y.
  apply engine_only_bind; [done|]. intros ys. apply engine_only_ret.
Qed.

Ltac engine_only_step :=
  first [ apply engine_only_ret | apply engine_only_lift
        | apply engine_only_raise | apply engine_only_self
        | apply engine_only_logger
        | apply engine_only_mapM; intros ?
        | apply engine_only_bind; [|intros ?]
        | match goal with
          | |- engine_only (let '(_, _) := ?p in _) => destruct p as [? ?]
          | |- engine_only (if ?b then _ else _) => destruct b
          | |- engine_only (deref ?df) => destruct df; cbn [deref]
          end ].

Lemma reconcile_row_engine_only (scorer : string → string → Z)
    (descriptions : list value) (row : gmap string value) :
  engine_only (reconcile_row scorer descriptions row).
Proof. unfold reconcile_row. repeat engine_only_step. Qed.

(** A call of [reconcile] never writes the engine, and its result depends
    on the engine and the two tables only. *)
Lemma reconcile_engine_only (scorer : string → string → Z)
    (df_invoice df_clinical : option DataFrame) :
  engine_only (reconcile scorer df_invoice df_clinical).
Proof.
  unfold reconcile. repeat engine_only_step.
Qed.

(** C4, as it holds.  When validation fails, [reconcile] raises a
    [ValueError] before the loop starts: one error record is logged, no
    result comes out, the engine is as it was, and a later call gives what
    it would have given.  On a table that has rows the message names each
    required column that is missing; on an empty table, or at [None], it
    only says that the table is empty. *)
Theorem reconcile_validation_failure (scorer : string → string → Z)
    (df_invoice df_clinical : option DataFrame) (w : world) :
  (unfit df_invoice invoice_required = true →
     ∃ msg,
       tells_problem df_invoice invoice_required msg
       ∧ reconcile scorer df_invoice df_clinical w
         = (logged ERROR ("Invoice data validation failed: " +:+ msg) w,
            Raise (ValueError ("Invalid invoice data: " +:+ msg))))
  ∧ (unfit df_invoice invoice_required = false →
     unfit df_clinical clinical_required = true →
       ∃ msg,
         tells_problem df_clinical clinical_required msg
         ∧ reconcile scorer df_invoice df_clinical w
           = (logged ERROR ("Clinical data validation failed: " +:+ msg) w,
              Raise (ValueError ("Invalid clinical data: " +:+ msg))))
  ∧ (∀ l msg df_invoice' df_clinical',
       this (logged l msg w) = this w
       ∧ (reconcile scorer df_invoice' df_clinical' (logged l msg w)).2
         = (reconcile scorer df_invoice' df_clinical' w).2).
Proof.
  split; [|split].
  - intros Hinv. unfold reconcile.
    pose proof (validate_dataframe_unfit df_invoice invoice_required) as Hv.
    rewrite Hinv in Hv.
    destruct (validate_dataframe df_invoice invoice_required)
      as [valid err] eqn:Hval.
    simpl in Hv. subst valid.
    apply validate_dataframe_false in Hval as (msg & -> & Hmsg).
    exists msg. split; [done|]. cbn [negb fstr]. by run_M.
  - intros Hinv Hclin. unfold reconcile.
    pose proof (validate_dataframe_unfit df_invoice invoice_required) as Hv.
    rewrite Hinv in Hv.
    destruct (validate_dataframe df_invoice invoice_required) as [valid e0].
    simpl in Hv. subst valid.
    pose proof (validate_dataframe_unfit df_clinical clinical_required) as Hvc.
    rewrite Hclin in Hvc.
    destruct (validate_dataframe df_clinical clinical_required)
      as [valid err] eqn:Hval.
    simpl in Hvc. subst valid.
    apply validate_dataframe_false in Hval as (msg & -> & Hmsg).
    exists msg. split; [done|]. cbn [negb fstr]. by run_M.
  - intros l msg df_invoice' df_clinical'. split; [done|].
    by apply reconcile_engine_only.
Qed.

(** ** Summary statistics *)

Lemma result_bind_Ok {A B} (a : A) (f : A → result B) : Ok a ≫= f = f a.
Proof. reflexivity. Qed.

(** *** Sums that stay inside the machine numbers *)

Lemma wrap64_small (z : Z) : - 2 ^ 63 ≤ z < 2 ^ 63 → wrap64 z = z.
Proof. intros Hz. unfold wrap64. rewrite Z.mod_small; lia. Qed.

Lemma magnitude_cons (z : Z) (zs : list Z) :
  magnitude (z :: zs) = Z.abs z + magnitude zs.
Proof. reflexivity. Qed.

Lemma magnitude_nonneg (zs : list Z) : 0 ≤ magnitude zs.
Proof.
  induction zs as [|z zs IH]; [done|]. rewrite magnitude_cons. lia.
Qed.

Lemma sum_Z_cons (z : Z) (zs : list Z) : sum_Z (z :: zs) = z + sum_Z zs.
Proof. reflexivity. Qed.

Lemma sum_Z_magnitude (zs : list Z) : Z.abs (sum_Z zs) ≤ magnitude zs.
Proof.
  induction zs as [|z zs IH]; [done|].
  rewrite sum_Z_cons, magnitude_cons. lia.
Qed.

Lemma magnitude_filter {A} (f : A → Z) (P : A → Prop)
    `{!∀ x, Decision (P x)} (l : list A) :
  magnitude (f <$> filter P l) ≤ magnitude (f <$> l).
Proof.
  induction l as [|x l IH]; [done|]. rewrite filter_cons.
  destruct (decide (P x)); rewrite !fmap_cons, ?magnitude_cons; lia.
Qed.

Lemma fold_wrap64_fits (acc : Z) (zs : list Z) :
  Z.abs acc + magnitude zs < 2 ^ 63 →
  fold_left (λ acc x, wrap64 (acc + x)) zs acc = acc + sum_Z zs.
Proof.
  revert acc. induction zs as [|z zs IH]; intros acc.
  - intros _. simpl. unfold sum_Z. simpl. lia.
  - rewrite magnitude_cons, sum_Z_cons. intros Hfit.
    pose proof (magnitude_nonneg zs).
    cbn [fold_left]. rewrite wrap64_small by lia. rewrite IH; lia.
Qed.

Lemma int64_sum_fits (zs : list Z) :
  magnitude zs < 2 ^ 63 → int64_sum zs = sum_Z zs.
Proof.
  destruct zs as [|z zs]; [done|]. rewrite magnitude_cons, sum_Z_cons.
  intros Hfit. unfold int64_sum. by apply fold_wrap64_fits.
Qed.

Lemma round_div_1 (x : Z) : round_div x 1 = x.
Proof.
  unfold round_div. rewrite Z.div_1_r, Z.mod_1_r. by destruct (Z.odd x).
Qed.

(** A whole number of no more than 53 bits is a [float] as it stands. *)
Lemma float_of_int_small (z : Z) : Z.abs z ≤ 2 ^ 53 → float_of_int z = z.
Proof.
  intros Hz. destruct (decide (Z.abs z = 2 ^ 53)) as [Heq | Hne].
  - destruct (Z.abs_eq_or_opp z) as [Hs | Hs]; rewrite Hs in Heq.
    + by subst z.
    + assert (z = - 2 ^ 53) as -> by lia. done.
  - unfold float_of_int.
    assert (Z.log2 (Z.abs z) < 53) as Hlog.
    { destruct (decide (Z.abs z = 0)) as [-> | Hpos]; [done|].
      apply Z.log2_lt_pow2; lia. }
    rewrite Z.max_l by lia. rewrite Z.pow_0_r, round_div_1, Z.mul_1_r.
    lia.
Qed.

Lemma fold_float_fits (acc : Z) (zs : list Z) :
  Z.abs acc + magnitude zs ≤ 2 ^ 53 →
  fold_left (λ acc z, float_of_int (acc + float_of_int z)) zs acc
  = acc + sum_Z zs.
Proof.
  revert acc. induction zs as [|z zs IH]; intros acc.
  - intros _. simpl. unfold sum_Z. simpl. lia.
  - rewrite magnitude_cons, sum_Z_cons. intros Hfit.
    pose proof (magnitude_nonneg zs).
    cbn [fold_left]. rewrite (float_of_int_small z) by lia.
    rewrite (float_of_int_small (acc + z)) by lia. rewrite IH; lia.
Qed.

Lemma float_sum_fits (zs : list Z) :
  magnitude zs ≤ 2 ^ 53 → float_sum zs = sum_Z zs.
Proof. intros Hfit. unfold float_sum. by rewrite fold_float_fits. Qed.

Lemma reduce_add_ints (acc : Z) (zs : list Z) :
  reduce_add (VInt acc) (VInt <$> zs)
  = Ok (VInt (fold_left (λ acc x, wrap64 (acc + x)) zs acc)).
Proof.
  revert acc. induction zs as [|z zs IH]; intros acc; [done|].
  cbn [fmap list_fmap reduce_add py_add]. by rewrite result_bind_Ok, IH.
Qed.

Lemma series_sum_ints (zs : list Z) :
  series_sum (VInt <$> zs) = Ok (VInt (int64_sum zs)).
Proof. destruct zs as [|z zs]; [done|]. simpl. by rewrite reduce_add_ints. Qed.

Lemma mapM_as_int_cons (v : value) (vs : list value) :
  mapM as_int (v :: vs)
  = z ← as_int v; zs ← mapM as_int vs; mret (z :: zs).
Proof. reflexivity. Qed.

Lemma mapM_as_int_ints (zs : list Z) : mapM as_int (VInt <$> zs) = Some zs.
Proof.
  induction zs as [|z zs IH]; [done|].
  by rewrite fmap_cons, mapM_as_int_cons, IH.
Qed.

Lemma series_mean_ints (zs : list Z) :
  zs ≠ [] →
  series_mean (VInt <$> zs)
  = Ok (Fin (float_div (float_sum zs) (Z.of_nat (length zs)))).
Proof.
  intros Hne. destruct zs as [|z zs]; [done|].
  pose proof (mapM_as_int_ints (z :: zs)) as Hints.
  unfold series_mean. cbn [fmap list_fmap] in *. by rewrite Hints.
Qed.



Lemma mapM_result_cons {A B} (f : A → result B) (x : A) (l : list A) :
  mapM f (x :: l) = y ← f x; ys ← mapM f l; mret (y :: ys).
Proof. reflexivity. Qed.

Lemma getitem_Some (row : gmap string value) (c : string) (v : value) :
  row !! c = Some v → getitem row c = Ok v.
Proof. intros Hv. unfold getitem. by rewrite Hv. Qed.

Lemma getitem_column_rows (c : string) (cols : list string)
    (rs : list (gmap string value)) (f : gmap string value → value) :
  c ∈ cols → Forall (λ r, r !! c = Some (f r)) rs →
  getitem_column {| columns := cols; rows := rs |} c = Ok (f <$> rs).
Proof.
  intros Hc Hrs. unfold getitem_column. simpl.
  rewrite bool_decide_eq_true_2 by done.
  induction Hrs as [|r rs Hr _ IH]; [done|].
  by rewrite mapM_result_cons, (getitem_Some r c _ Hr), IH.
Qed.




Lemma tier_entry_zero (df : DataFrame) (tier : string) :
  count (tier_entry df tier) = 0%nat →
  total_amount (tier_entry df tier) = VInt 0
  ∧ avg_amount (tier_entry df tier) = Fin 0.
Proof.
  unfold tier_entry, tier_total. simpl.
  by intros ->%length_zero_iff_nil.
Qed.



(** *** Failures in the statistics *)

Lemma for_each_raise {A S} (body : A → S → result S) (xs : list A) (x : A)
    (s : S) :
  x ∈ xs → (∀ s', ∃ e, body x s' = Raise e) →
  ∃ e, for_each xs body s = Raise e.
Proof.
  intros Hx Hbody. revert s.
  induction xs as [|y xs IH]; intros s; [by apply elem_of_nil in Hx|].
  simpl. apply elem_of_cons in Hx as [<- | Hx].
  - destruct (Hbody s) as [e ->]. by exists e.
  - destruct (body y s) as [s'|e]; [|by exists e]. by apply IH.
Qed.

Lemma mapM_result_inv {A B} (f : A → result B) (l : list A) (ys : list B) :
  mapM f l = Ok ys → Forall2 (λ x y, f x = Ok y) l ys.
Proof.
  revert ys. induction l as [|x l IH]; intros ys.
  - intros [= <-]. constructor.
  - rewrite mapM_result_cons. destruct (f x) as [y|e] eqn:Hy; [|done].
    rewrite result_bind_Ok. destruct (mapM f l) as [ys'|e]; [|done].
    intros [= <-]. constructor; [done|]. by apply IH.
Qed.

Lemma mapM_as_int_text (cells : list value) (s : string) :
  VStr s ∈ cells → mapM as_int cells = None.
Proof.
  induction cells as [|v cells IH]; [by intros ?%elem_of_nil|].
  rewrite mapM_as_int_cons. intros [<- | Hin]%elem_of_cons; [done|].
  rewrite (IH Hin). by destruct (as_int v).
Qed.

Lemma series_mean_text (cells : list value) (s : string) :
  VStr s ∈ cells → ∃ e, series_mean cells = Raise e.
Proof.
  intros Hin. unfold series_mean. rewrite (mapM_as_int_text cells s Hin).
  destruct cells; [by apply elem_of_nil in Hin|]. by eexists.
Qed.

Lemma getitem_column_elem_of (df : DataFrame) (c : string)
    (cells : list value) (r : gmap string value) (v : value) :
  getitem_column df c = Ok cells → r ∈ rows df → r !! c = Some v →
  v ∈ cells.
Proof.
  unfold getitem_column. case_bool_decide; [|done].
  intros Hcells%mapM_result_inv Hr Hv.
  apply list_elem_of_lookup in Hr as [i Hi].
  destruct (Forall2_lookup_l _ _ _ _ _ Hcells Hi) as (v' & Hv' & Hget).
  unfold getitem in Hget. rewrite Hv in Hget. injection Hget as <-.
  by eapply list_elem_of_lookup_2.
Qed.

(** A tier that has a row whose cost is text makes its turn of the loop
    raise. *)
Lemma summarize_level_text (df : DataFrame) (tier : string)
    (r : gmap string value) (s : string) (summary : gmap string SummaryEntry) :
  r ∈ rows df →
  r !! "Risk_Level" = Some (VStr tier) →
  r !! "Cost_At_Risk" = Some (VStr s) →
  ∃ e, summarize_level df tier summary = Raise e.
Proof.
  intros Hr Htier Hcost. unfold summarize_level, select_eq.
  destruct (getitem_column df "Risk_Level") as [levels|e]; [|by exists e].
  rewrite !result_bind_Ok.
  set (filtered := {| columns := columns df; rows := filter _ (rows df) |}).
  assert (r ∈ rows filtered) as Hin by (by apply list_elem_of_filter).
  destruct (getitem_column filtered "Cost_At_Risk") as [cells|e] eqn:Hcells;
    [|by exists e].
  rewrite result_bind_Ok.
  destruct (series_sum cells) as [total|e]; [|by exists e].
  rewrite result_bind_Ok, bool_decide_eq_true_2.
  2:{ unfold len. destruct (rows filtered); [by apply elem_of_nil in Hin|].
      simpl. lia. }
  rewrite result_bind_Ok.
  destruct (series_mean_text cells s) as [e ->];
    [by eapply getitem_column_elem_of|].
  by exists e.
Qed.

Lemma financial_metrics_try_text (df : DataFrame) (c : string)
    (r : gmap string value) (s : string) :
  r ∈ rows df → r !! c = Some (VStr s) →
  ∃ e, financial_metrics_try df c = Raise e.
Proof.
  intros Hr Hc. unfold financial_metrics_try.
  destruct (getitem_column df c) as [cells|e] eqn:Hcells; [|by exists e].
  rewrite result_bind_Ok.
  destruct (series_sum cells) as [total|e]; [|by exists e].
  rewrite !result_bind_Ok.
  destruct (series_mean_text cells s) as [e ->];
    [by eapply getitem_column_elem_of|].
  by exists e.
Qed.

(** C8, as it holds.  When a tier has a row whose cost is text,
    [generate_summary_stats] raises: it has no handler, and the caller gets
    the exception and no summary.  The handler is in
    [calculate_financial_metrics], which on the same table logs one error
    and returns the zero entry. *)
Theorem statistics_failure (df : DataFrame) (tier : string)
    (r : gmap string value) (s : string) (w : world) :
  r ∈ rows df → tier ∈ risk_tiers →
  r !! "Risk_Level" = Some (VStr tier) →
  r !! "Cost_At_Risk" = Some (VStr s) →
  (∃ e, generate_summary_stats df = Raise e)
  ∧ (∃ msg, calculate_financial_metrics df "Cost_At_Risk" w
            = (logged ERROR msg w, Ok zero_metrics)).
Proof.
  intros Hr Htier Hlevel Hcost. split.
  - unfold generate_summary_stats.
    rewrite risk_high, risk_medium, risk_low.
    apply (for_each_raise _ _ tier); [done|].
    intros summary. by eapply summarize_level_text.
  - unfold calculate_financial_metrics.
    destruct (financial_metrics_try_text df "Cost_At_Risk" r s) as [e ->];
      [done|done|].
    run_M. by eexists.
Qed.

(** ** Idempotence of the normalizer *)

(** C7, as it holds.  On a string [normalize_text] is idempotent.  A value
    that is not a string is handed back as [str] prints it, so one more
    pass can still change it; from the second pass on nothing changes. *)
Theorem normalize_text_idempotent_on_str (s : string) (x : value) :
  normalize_text (VStr (normalize_text (VStr s))) = normalize_text (VStr s)
  ∧ (∀ z, x = VInt z → normalize_text x = py_str x)
  ∧ normalize_text (VStr (normalize_text (VStr (normalize_text x))))
    = normalize_text (VStr (normalize_text x)).
Proof.
  split; [apply normalize_str_idempotent|]. split; [by intros z ->|].
  apply normalize_str_idempotent.
Qed.

Lemma normalize_text_idempotent_on_str_witness :
  normalize_text (VInt 42) = "42".
Proof.
  by apply (normalize_text_idempotent_on_str "" (VInt 42)) with (z := 42).
Defined.

Lemma normalize_text_changes_printed_int :
  normalize_text (VInt (-5)) = "-5"
  ∧ normalize_text (VStr (normalize_text (VInt (-5)))) = "5"
  ∧ normalize_text (VStr (normalize_text (VInt (-5))))
    ≠ normalize_text (VInt (-5)).
Proof. by vm_compute. Qed.

(** ** No candidate *)

(** C9, as it holds.  On an empty candidate list [fuzzy_match_item] answers
    with the sentinel and the score 0; [classify_risk] puts the score 0 in
    the tier High exactly when the configured threshold is above 0. *)
Theorem fuzzy_match_item_no_candidate (scorer : string → string → Z)
    (vendor_item : value) (engine : ReconciliationEngine) :
  fuzzy_match_item scorer vendor_item [] = Ok (VStr "No Match Found", 0)
  ∧ (0 < match_threshold engine →
       classify_risk engine 0 = ("❌ REVENUE LEAKAGE", "High"))
  ∧ ((classify_risk engine 0).2 = "High" ↔ 0 < match_threshold engine).
Proof.
  split; [reflexivity|].
  unfold classify_risk, HIGH_CONFIDENCE_THRESHOLD.
  rewrite risk_low, risk_medium, risk_high. simpl.
  destruct (Z.leb_spec (match_threshold engine) 0); simpl.
  - split; [lia|]. split; [discriminate|lia].
  - by split.
Qed.

Lemma fuzzy_match_item_no_candidate_witness :
  0 < match_threshold {| match_threshold := 70 |}
  ∧ classify_risk {| match_threshold := 70 |} 0
    = ("❌ REVENUE LEAKAGE", "High").
Proof.
  split; [by vm_compute|].
  apply (fuzzy_match_item_no_candidate word_scorer (VStr "Zimmer Hip Stem")
           {| match_threshold := 70 |}).
  by vm_compute.
Defined.

Lemma no_candidate_medium_at_threshold_0 :
  fuzzy_match_item word_scorer (VStr "Zimmer Hip Stem") []
    = Ok (VStr "No Match Found", 0)
  ∧ classify_risk {| match_threshold := 0 |} 0
    = ("⚠️ Review Required", "Medium")
  ∧ (classify_risk {| match_threshold := 0 |} 0).2 ≠ "High".
Proof. by vm_compute. Qed.

(** ** The statements on the sample tables *)

Lemma fuzzy_match_item_first_max_witness :
  candidate_texts ≠ []
  ∧ Forall (λ c, 0 ≤ similarity word_scorer "Stryker Knee System" c)
           candidate_texts
  ∧ ∃ i c,
      first_max (similarity word_scorer "Stryker Knee System")
        candidate_texts i c
      ∧ fuzzy_match_item word_scorer (VStr "Stryker Knee System")
          (VStr <$> candidate_texts)
        = Ok (VStr c, similarity word_scorer "Stryker Knee System" c).
Proof.
  assert (Forall (λ c, 0 ≤ similarity word_scorer "Stryker Knee System" c)
            candidate_texts) as Hpos.
  { repeat constructor; by vm_compute. }
  split; [done|]. split; [exact Hpos|].
  by apply fuzzy_match_item_first_max.
Defined.

Lemma reconcile_one_row_per_invoice_witness :
  wf_frame sample_invoices = true
  ∧ validate_dataframe (Some sample_invoices) invoice_required = (true, None)
  ∧ ∃ out,
      (reconcile word_scorer (Some sample_invoices) (Some sample_clinical)
         (init 70 [])).2 = Ok out
      ∧ len out = len sample_invoices
      ∧ ∀ i r, rows sample_invoices !! i = Some r →
          ∃ o, rows out !! i = Some o ∧ carries r o.
Proof.
  split; [by vm_compute|]. split; [by vm_compute|].
  apply reconcile_one_row_per_invoice; by vm_compute.
Defined.

Lemma reconcile_validation_failure_witness :
  unfit (Some invoices_without_cost) invoice_required = true
  ∧ ∃ msg,
      tells_problem (Some invoices_without_cost) invoice_required msg
      ∧ reconcile word_scorer (Some invoices_without_cost)
          (Some sample_clinical) (init 70 [])
        = (logged ERROR ("Invoice data validation failed: " +:+ msg)
             (init 70 []),
           Raise (ValueError ("Invalid invoice data: " +:+ msg))).
Proof.
  split; [by vm_compute|].
  apply (proj1 (reconcile_validation_failure word_scorer
                  (Some invoices_without_cost) (Some sample_clinical)
                  (init 70 []))).
  by vm_compute.
Defined.

(** On a table that has no row the message does not name the column that
    is missing too. *)
Lemma reconcile_empty_table_names_no_column :
  unfit (Some no_invoices) invoice_required = true
  ∧ ("Unit_Cost" ∈ invoice_required)
  ∧ ("Unit_Cost" ∉ columns no_invoices)
  ∧ (reconcile word_scorer (Some no_invoices) (Some sample_clinical)
       (init 70 [])).2
    = Raise (ValueError "Invalid invoice data: DataFrame is empty")
  ∧ (¬ occurs_in "Unit_Cost" "Invalid invoice data: DataFrame is empty").
Proof.
  split; [by vm_compute|].
  split; [rewrite invoice_required_eq; by do 2 right; left|]. split.
  { intros Hin. simpl in Hin.
    repeat (apply elem_of_cons in Hin as [Hin|Hin]; [discriminate|]).
    by apply elem_of_nil in Hin. }
  split; [by vm_compute|]. unfold occurs_in. by vm_compute.
Qed.



Lemma statistics_failure_witness :
  (∃ e, generate_summary_stats text_cost_results = Raise e)
  ∧ ∃ msg, calculate_financial_metrics text_cost_results "Cost_At_Risk"
             (init 70 [])
           = (logged ERROR msg (init 70 []), Ok zero_metrics).
Proof.
  apply (statistics_failure text_cost_results "High" text_cost_row "n/a").
  - by left.
  - by left.
  - by vm_compute.
  - by vm_compute.
Defined.

(** A cost that is text in the rows of a tier: the exception of [mean]
    reaches the caller. *)
Lemma generate_summary_stats_propagates :
  generate_summary_stats text_cost_results
    = Raise (TypeError "Could not convert string to numeric")
  ∧ ∀ summary, generate_summary_stats text_cost_results ≠ Ok summary.
Proof. split; [by vm_compute|]. intros summary. by vm_compute. Qed.

(** * More of the code *)

(** ** The normalizer: empty results, concatenation *)

Lemma split_cons_space (c : ascii) (s : string) :
  Text.is_space c = true → Text.split (String c s) = Text.split s.
Proof.
  intros Hc. by rewrite (split_alt (String c s)), split_aux_head_space.
Qed.

Lemma split_cons_char (c : ascii) (s : string) :
  Text.is_space c = false →
  Text.split (String c s)
  = String c (Text.split_aux s).1 :: (Text.split_aux s).2.
Proof.
  intros Hc. by rewrite (split_alt (String c s)), split_aux_head_char.
Qed.

Lemma split_nil_iff (s : string) :
  Text.split s = [] ↔ Text.all_chars Text.is_space s = true.
Proof.
  induction s as [|c s IH]; [done|].
  cbn [Text.all_chars]. destruct (Text.is_space c) eqn:Hc.
  - by rewrite split_cons_space.
  - by rewrite split_cons_char.
Qed.

Lemma join_nil_iff (ws : list string) :
  Forall (λ w, headed w = true) ws → Text.join " " ws = "" ↔ ws = [].
Proof.
  intros Hws. split; [|by intros ->].
  intros Hjoin. destruct ws as [|w ws]; [done|].
  pose proof (join_headed (w :: ws) Hws) as Hhead.
  rewrite Hjoin in Hhead. by discriminate Hhead.
Qed.

Lemma space_after_maps (c : ascii) :
  Text.is_space (Text.sub_char (Text.lower_char c))
  = negb (Text.is_alnum (Text.lower_char c)).
Proof. by_cases_on_char c. Qed.

Lemma all_space_after_maps (s : string) :
  Text.all_chars Text.is_space (Text.re_sub_special (Text.lower s))
  = Text.all_chars (λ c, negb (Text.is_alnum (Text.lower_char c))) s.
Proof.
  unfold Text.re_sub_special, Text.lower.
  induction s as [|c s IH]; [done|].
  cbn [Text.map Text.all_chars]. by rewrite IH, space_after_maps.
Qed.

(** X1. The normal form of a string is empty exactly when the string has
    no letter and no digit. *)
Theorem normalize_text_empty_iff (s : string) :
  normalize_text (VStr s) = ""
  ↔ Text.all_chars (λ c, negb (Text.is_alnum (Text.lower_char c))) s = true.
Proof.
  unfold normalize_text. rewrite join_nil_iff by apply split_headed.
  by rewrite split_nil_iff, all_space_after_maps.
Qed.

Lemma normalize_text_empty_iff_witness :
  normalize_text (VStr " -- (#) !") = ""
  ∧ Text.all_chars (λ c, negb (Text.is_alnum (Text.lower_char c)))
      "PO-7" = false.
Proof.
  split.
  - apply (proj2 (normalize_text_empty_iff " -- (#) !")). reflexivity.
  - destruct (Text.all_chars _ "PO-7") eqn:Hall; [|reflexivity].
    apply (proj2 (normalize_text_empty_iff "PO-7")) in Hall.
    vm_compute in Hall. discriminate.
Defined.

Lemma map_app (f : ascii → ascii) (s t : string) :
  Text.map f (s +:+ t) = Text.map f s +:+ Text.map f t.
Proof.
  induction s as [|c s IH]; [done|].
  rewrite append_cons. cbn [Text.map]. by rewrite IH, append_cons.
Qed.

Lemma cons_word_app (w : string) (ws ws' : list string) :
  Text.cons_word w (ws ++ ws') = Text.cons_word w ws ++ ws'.
Proof. by destruct w. Qed.

Lemma split_aux_app_space (s t : string) (c : ascii) :
  Text.is_space c = true →
  Text.split_aux (s +:+ String c t)
  = ((Text.split_aux s).1, (Text.split_aux s).2 ++ Text.split t).
Proof.
  intros Hc. induction s as [|d s IH].
  - rewrite append_nil_l. by rewrite split_aux_head_space.
  - rewrite append_cons. destruct (Text.is_space d) eqn:Hd.
    + rewrite !split_aux_head_space by done.
      rewrite (split_alt (s +:+ _)), IH, (split_alt s). cbn [fst snd].
      by rewrite cons_word_app.
    + rewrite !split_aux_head_char by done. by rewrite IH.
Qed.

Lemma split_app_space (s t : string) (c : ascii) :
  Text.is_space c = true →
  Text.split (s +:+ String c t) = Text.split s ++ Text.split t.
Proof.
  intros Hc. rewrite (split_alt (s +:+ _)), split_aux_app_space by done.
  cbn [fst snd]. by rewrite cons_word_app, <-split_alt.
Qed.

Lemma split_normalize_text (s : string) :
  Text.split (normalize_text (VStr s)) = words_of s.
Proof. apply split_join, split_words, cleaned_sub_lower. Qed.

(** X2. Normalizing two texts put together with a space between them gives
    the words of the one followed by the words of the other, joined by
    single spaces. *)
Theorem normalize_text_app (a b : string) :
  normalize_text (VStr (a +:+ " " +:+ b))
  = Text.join " " (Text.split (normalize_text (VStr a))
                   ++ Text.split (normalize_text (VStr b))).
Proof.
  rewrite !split_normalize_text. unfold normalize_text, words_of.
  unfold Text.lower, Text.re_sub_special. rewrite !map_app.
  change (Text.map Text.sub_char (Text.map Text.lower_char " "))
    with (String " "%char "").
  rewrite append_cons, append_nil_l. by rewrite split_app_space.
Qed.

(** ** Validation: the verdict and the message *)

(** X3. [validate_dataframe] accepts a table exactly when it is there, has
    a row and a column, and has every required column; it then returns no
    message, and returns one whenever it refuses. *)
Theorem validate_dataframe_verdict (df : option DataFrame)
    (required : list string) :
  (validate_dataframe df required = (true, None)
     ↔ ∃ d, df = Some d ∧ columns d ≠ [] ∧ rows d ≠ []
            ∧ ∀ c, c ∈ required → c ∈ columns d)
  ∧ ((validate_dataframe df required).1 = false →
       ∃ msg, validate_dataframe df required = (false, Some msg)).
Proof.
  split; [split|].
  - intros Hval. apply validate_dataframe_true in Hval
      as (d & -> & _ & Hempty & Hcols).
    exists d. unfold empty in Hempty.
    by destruct (columns d), (rows d).
  - intros (d & -> & Hc & Hr & Hcols).
    pose proof (validate_dataframe_unfit (Some d) required) as Hv.
    assert (unfit (Some d) required = false) as Hfit.
    { unfold unfit, empty. destruct (columns d) eqn:?, (rows d) eqn:?; try done.
      simpl. apply negb_false_iff, forallb_forall.
      intros c Hin%list_elem_of_In. by apply bool_decide_eq_true, Hcols. }
    rewrite Hfit in Hv.
    destruct (validate_dataframe (Some d) required) as [valid err] eqn:Hval.
    simpl in Hv. subst valid.
    by apply validate_dataframe_true in Hval as (? & _ & -> & _).
  - destruct (validate_dataframe df required) as [valid err] eqn:Hval.
    simpl. intros ->.
    apply validate_dataframe_false in Hval as (msg & -> & _). by exists msg.
Qed.

Lemma validate_dataframe_verdict_witness :
  validate_dataframe (Some sample_invoices) invoice_required = (true, None)
  ∧ ∃ msg, validate_dataframe None invoice_required = (false, Some msg).
Proof.
  split.
  - apply (validate_dataframe_verdict (Some sample_invoices) invoice_required).
    exists sample_invoices. by repeat split.
  - by apply (validate_dataframe_verdict None invoice_required).
Defined.

(** X4. On a table that has rows and columns and lacks required columns,
    the message is the fixed heading followed by the missing columns,
    separated by a comma and a space: each missing column once, also when
    the required list repeats it, and no other name. *)
Theorem validate_dataframe_missing (d : DataFrame) (required : list string)
    (c : string) :
  empty d = false → c ∈ required → c ∉ columns d →
  ∃ names,
    validate_dataframe (Some d) required
    = (false, Some ("Missing required columns: " +:+ Text.join ", " names))
    ∧ NoDup names
    ∧ ∀ c', c' ∈ names ↔ c' ∈ required ∧ c' ∉ columns d.
Proof.
  intros Hempty Hc Hnot. unfold validate_dataframe. rewrite Hempty.
  set (missing := list_to_set required ∖ list_to_set (columns d) : gset string).
  assert (c ∈ missing) as Hin.
  { apply elem_of_difference. by rewrite !elem_of_list_to_set. }
  rewrite bool_decide_eq_false_2.
  2:{ intros Hnone. rewrite Hnone in Hin. by apply not_elem_of_empty in Hin. }
  exists (elements missing). split; [done|]. split; [apply NoDup_elements|].
  intros c'. rewrite elem_of_elements. unfold missing.
  by rewrite elem_of_difference, !elem_of_list_to_set.
Qed.

Lemma validate_dataframe_missing_witness :
  ∃ names,
    validate_dataframe (Some invoices_without_cost)
      ["Unit_Cost"; "PO_Number"; "Unit_Cost"]
    = (false, Some ("Missing required columns: " +:+ Text.join ", " names))
    ∧ NoDup names
    ∧ ∀ c', c' ∈ names
        ↔ c' ∈ ["Unit_Cost"; "PO_Number"; "Unit_Cost"]
          ∧ c' ∉ columns invoices_without_cost.
Proof.
  apply (validate_dataframe_missing invoices_without_cost _ "Unit_Cost").
  - by vm_compute.
  - by left.
  - intros Hin. simpl in Hin.
    repeat (apply elem_of_cons in Hin as [Hin|Hin]; [discriminate|]).
    by apply elem_of_nil in Hin.
Defined.

(** ** The classifier: order and the three answers *)

(** X5. A higher score under a threshold that is not higher never gives a
    tier of more risk. *)
Theorem classify_risk_monotone (low high : ReconciliationEngine)
    (score score' : Z) :
  score ≤ score' → match_threshold low ≤ match_threshold high →
  (risk_rank (classify_risk low score').2
   ≤ risk_rank (classify_risk high score).2)%nat.
Proof.
  intros Hscore Hthreshold. unfold classify_risk, HIGH_CONFIDENCE_THRESHOLD.
  rewrite risk_low, risk_medium, risk_high.
  destruct (Z.leb_spec 90 score'), (Z.leb_spec 90 score),
    (Z.leb_spec (match_threshold low) score'),
    (Z.leb_spec (match_threshold high) score);
    simpl; unfold risk_rank; simpl; lia.
Qed.

Lemma classify_risk_monotone_witness :
  (risk_rank (classify_risk {| match_threshold := 60 |} 80).2
   ≤ risk_rank (classify_risk {| match_threshold := 70 |} 65).2)%nat.
Proof.
  apply (classify_risk_monotone {| match_threshold := 60 |}
           {| match_threshold := 70 |} 65 80); simpl; lia.
Defined.

(** X6. [classify_risk] gives one of three pairs of a label and a tier; the
    tier is Low exactly from the score 90 upwards, whatever the threshold,
    and High exactly when the score is below both 90 and the threshold. *)
Theorem classify_risk_answers (engine : ReconciliationEngine) (score : Z) :
  classify_risk engine score
    ∈ [("✅ Match Found", "Low"); ("⚠️ Review Required", "Medium");
       ("❌ REVENUE LEAKAGE", "High")]
  ∧ ((classify_risk engine score).2 = "Low"
       ↔ HIGH_CONFIDENCE_THRESHOLD ≤ score)
  ∧ ((classify_risk engine score).2 = "High"
       ↔ score < HIGH_CONFIDENCE_THRESHOLD ∧ score < match_threshold engine).
Proof.
  unfold classify_risk, HIGH_CONFIDENCE_THRESHOLD.
  rewrite risk_low, risk_medium, risk_high.
  destruct (Z.leb_spec 90 score), (Z.leb_spec (match_threshold engine) score);
    simpl; (split; [set_solver|]); split; split;
    first [discriminate | lia | done | intros; lia].
Qed.

Lemma classify_risk_answers_witness :
  (classify_risk {| match_threshold := 95 |} 92).2 = "Low"
  ∧ (classify_risk {| match_threshold := 70 |} 69).2 = "High".
Proof.
  split.
  - apply (classify_risk_answers {| match_threshold := 95 |} 92).
    unfold HIGH_CONFIDENCE_THRESHOLD. lia.
  - apply (classify_risk_answers {| match_threshold := 70 |} 69).
    unfold HIGH_CONFIDENCE_THRESHOLD. simpl. lia.
Defined.

(** ** The matcher: the sentinel, the range of the score, the query *)

Section MatcherMore.

Variable scorer : string → string → Z.

(** No best choice comes out of the scan exactly when none went in and no
    choice reaches the cut-off; a choice that comes out of the list reaches
    it. *)
Lemma scan_None (query : string) (choices : list string)
    (best : option (string * Z)) :
  scan scorer query best choices = None
  ↔ best = None ∧ Forall (λ c, scorer query (full_process c) < 0) choices.
Proof.
  revert best. induction choices as [|x choices IH]; intros best; simpl.
  - split; [by intros ->|by intros [-> _]].
  - rewrite IH. unfold better.
    destruct (Z.leb_spec 0 (scorer query (full_process x))) as [Hx|Hx]; simpl.
    + split.
      * intros [Hbest _].
        destruct best as [[c0 top]|]; simpl in Hbest;
          [destruct (top <? scorer query (full_process x))|]; discriminate.
      * intros [_ Hall]. apply Forall_cons in Hall as [Hlt _]. lia.
    + split.
      * intros [Hbest Hall]. split; [done|]. by constructor.
      * intros [Hbest [_ Hall]%Forall_cons]. by split.
Qed.

Lemma scan_Some (query : string) (choices : list string)
    (best : option (string * Z)) c s :
  scan scorer query best choices = Some (c, s) →
  best = Some (c, s)
  ∨ (c ∈ choices ∧ s = scorer query (full_process c) ∧ 0 ≤ s).
Proof.
  revert best. induction choices as [|x choices IH]; intros best; simpl.
  - by left.
  - intros [Hbest | (Hin & Hs & Hpos)]%IH.
    + unfold better in Hbest.
      destruct (Z.leb_spec 0 (scorer query (full_process x))) as [Hx|Hx];
        simpl in Hbest; [|by left].
      destruct (match best with Some (_, top) => _ | None => true end);
        [|by left].
      injection Hbest as <- <-. right. split; [by left|done].
    + right. split; [by right|done].
Qed.

Lemma fuzzy_match_item_sentinel (vendor_item : value)
    (clinical_items : list value) :
  Forall (λ c, sim scorer vendor_item c < 0) clinical_items →
  fuzzy_match_item scorer vendor_item clinical_items
  = Ok (VStr "No Match Found", 0).
Proof.
  intros Hall. unfold fuzzy_match_item, extractOne.
  assert (scan scorer (full_process (normalize_text vendor_item)) None
            (normalize_text <$> clinical_items) = None) as ->; [|done].
  apply scan_None. split; [done|]. by apply Forall_fmap.
Qed.

Lemma fuzzy_match_item_candidate (vendor_item : value)
    (clinical_items : list value) :
  Exists (λ c, 0 ≤ sim scorer vendor_item c) clinical_items →
  ∃ i item,
    clinical_items !! i = Some item
    ∧ 0 ≤ sim scorer vendor_item item
    ∧ fuzzy_match_item scorer vendor_item clinical_items
      = Ok (item, sim scorer vendor_item item).
Proof.
  intros Hex. unfold fuzzy_match_item, extractOne.
  destruct (scan scorer (full_process (normalize_text vendor_item)) None
              (normalize_text <$> clinical_items)) as [[c s]|] eqn:Hscan.
  - apply scan_Some in Hscan as [?|(Hin & -> & Hpos)]; [done|].
    apply index_elem_of in Hin as (i & -> & Hi & _).
    rewrite list_lookup_fmap in Hi. unfold getitem_list.
    rewrite result_bind_Ok.
    destruct (clinical_items !! i) as [item|] eqn:Hitem; [|done].
    injection Hi as <-. by exists i, item.
  - apply scan_None in Hscan as [_ Hall]. apply Forall_fmap in Hall.
    apply Exists_exists in Hex as (c & Hc & Hpos).
    rewrite Forall_forall in Hall. specialize (Hall c Hc). simpl in Hall.
    unfold sim in Hpos. lia.
Qed.

Lemma candidates_cases (vendor_item : value) (clinical_items : list value) :
  Forall (λ c, sim scorer vendor_item c < 0) clinical_items
  ∨ Exists (λ c, 0 ≤ sim scorer vendor_item c) clinical_items.
Proof.
  induction clinical_items as [|c cs [IH|IH]].
  - left. constructor.
  - destruct (Z.lt_ge_cases (sim scorer vendor_item c) 0).
    + left. by constructor.
    + right. by left.
  - right. by right.
Qed.

End MatcherMore.

(** X7. [fuzzy_match_item] never raises.  It answers with the sentinel and
    the score 0 when no candidate reaches the cut-off 0, an empty list
    included, and as soon as one does with a candidate of the list that
    reaches it and the score of that candidate. *)
Theorem fuzzy_match_item_answers (scorer : string → string → Z)
    (vendor_item : value) (clinical_items : list value) :
  (Forall (λ c, sim scorer vendor_item c < 0) clinical_items →
     fuzzy_match_item scorer vendor_item clinical_items
     = Ok (VStr "No Match Found", 0))
  ∧ (Exists (λ c, 0 ≤ sim scorer vendor_item c) clinical_items →
       ∃ i item,
         clinical_items !! i = Some item
         ∧ 0 ≤ sim scorer vendor_item item
         ∧ fuzzy_match_item scorer vendor_item clinical_items
           = Ok (item, sim scorer vendor_item item))
  ∧ ∃ name score,
      fuzzy_match_item scorer vendor_item clinical_items = Ok (name, score).
Proof.
  split; [apply fuzzy_match_item_sentinel|].
  split; [apply fuzzy_match_item_candidate|].
  apply fuzzy_match_item_total.
Qed.

Lemma fuzzy_match_item_answers_witness :
  Exists (λ c, 0 ≤ sim word_scorer (VStr "Zimmer Hip Stem") c)
         sample_candidates
  ∧ ∃ i item,
      sample_candidates !! i = Some item
      ∧ 0 ≤ sim word_scorer (VStr "Zimmer Hip Stem") item
      ∧ fuzzy_match_item word_scorer (VStr "Zimmer Hip Stem") sample_candidates
        = Ok (item, sim word_scorer (VStr "Zimmer Hip Stem") item).
Proof.
  assert (Exists (λ c, 0 ≤ sim word_scorer (VStr "Zimmer Hip Stem") c)
            sample_candidates) as Hex by (left; by vm_compute).
  split; [done|].
  by apply (fuzzy_match_item_answers word_scorer (VStr "Zimmer Hip Stem")
              sample_candidates).
Defined.

(** X8. When the scorer gives no candidate more than 100, the score that
    [fuzzy_match_item] returns is from 0 to 100. *)
Theorem fuzzy_match_item_score_range (scorer : string → string → Z)
    (vendor_item : value) (clinical_items : list value) name score :
  Forall (λ c, sim scorer vendor_item c ≤ 100) clinical_items →
  fuzzy_match_item scorer vendor_item clinical_items = Ok (name, score) →
  0 ≤ score ≤ 100.
Proof.
  intros Hmax Hrun.
  destruct (candidates_cases scorer vendor_item clinical_items) as [Hno|Hex].
  - rewrite fuzzy_match_item_sentinel in Hrun by done.
    injection Hrun as <- <-. lia.
  - apply fuzzy_match_item_candidate in Hex as (i & item & Hi & Hpos & Heq).
    rewrite Heq in Hrun. injection Hrun as <- <-.
    split; [done|].
    rewrite Forall_forall in Hmax. apply Hmax.
    by eapply list_elem_of_lookup_2.
Qed.

Lemma fuzzy_match_item_score_range_witness :
  0 ≤ 67 ≤ 100.
Proof.
  apply (fuzzy_match_item_score_range word_scorer
           (VStr "Stryker Knee System") sample_candidates
           (VStr "stryker knee TOTAL") 67).
  - repeat constructor; by vm_compute.
  - by vm_compute.
Defined.

Lemma lower_char_idempotent (c : ascii) :
  Text.lower_char (Text.lower_char c) = Text.lower_char c.
Proof. by_cases_on_char c. Qed.

Lemma lower_idempotent (s : string) : Text.lower (Text.lower s) = Text.lower s.
Proof.
  unfold Text.lower. induction s as [|c s IH]; [done|].
  cbn [Text.map]. by rewrite IH, lower_char_idempotent.
Qed.

(** X9. The match does not depend on the case of the query, nor on whether
    the query was normalized beforehand. *)
Theorem fuzzy_match_item_query (scorer : string → string → Z)
    (query : string) (clinical_items : list value) :
  fuzzy_match_item scorer (VStr (Text.lower query)) clinical_items
  = fuzzy_match_item scorer (VStr query) clinical_items
  ∧ fuzzy_match_item scorer (VStr (normalize_text (VStr query))) clinical_items
    = fuzzy_match_item scorer (VStr query) clinical_items.
Proof.
  unfold fuzzy_match_item. split.
  - assert (normalize_text (VStr (Text.lower query))
            = normalize_text (VStr query)) as ->; [|done].
    unfold normalize_text. by rewrite lower_idempotent.
  - assert (normalize_text (VStr (normalize_text (VStr query)))
            = normalize_text (VStr query)) as ->; [|done].
    apply normalize_str_idempotent.
Qed.

(** ** The reconciliation loop, row by row *)

Section ReconcileMore.

Variable scorer : string → string → Z.

Lemma reconcile_row_record (descriptions : list value)
    (row : gmap string value) (w : world) po item name score cost :
  row !! "PO_Number" = Some po →
  row !! "Vendor_Item_Name" = Some item →
  row !! "Unit_Cost" = Some (VInt cost) →
  fuzzy_match_item scorer item descriptions = Ok (name, score) →
  reconcile_row scorer descriptions row w
  = (w, Ok (result_record (this w) po item name score cost)).
Proof.
  intros Hpo Hitem Hcost Hmatch. unfold reconcile_row.
  rewrite invoice_po_number, invoice_vendor_item, invoice_unit_cost.
  unfold getitem. rewrite Hpo, Hitem, Hcost.
  run_M. rewrite Hmatch. run_M. unfold self at 1. run_M.
  unfold result_record.
  destruct (classify_risk (this w) score) as [status risk_level].
  cbn [format_currency]. by run_M.
Qed.

Lemma reconcile_row_text_cost (descriptions : list value)
    (row : gmap string value) (w : world) po item s :
  row !! "PO_Number" = Some po →
  row !! "Vendor_Item_Name" = Some item →
  row !! "Unit_Cost" = Some (VStr s) →
  reconcile_row scorer descriptions row w
  = (w, Raise (ValueError "Cannot specify ',' with 's'.")).
Proof.
  intros Hpo Hitem Hcost. unfold reconcile_row.
  rewrite invoice_po_number, invoice_vendor_item, invoice_unit_cost.
  unfold getitem. rewrite Hpo, Hitem, Hcost.
  run_M.
  destruct (fuzzy_match_item_total scorer item descriptions)
    as (name & score & ->).
  run_M. unfold self at 1. run_M.
  destruct (classify_risk (this w) score) as [status risk_level].
  cbn [format_currency]. by run_M.
Qed.

Lemma mapM_M_raise {A B} (f : A → M B) (l : list A) (w : world) (e : exn) :
  Forall (λ x, (∃ y, f x w = (w, Ok y)) ∨ f x w = (w, Raise e)) l →
  Exists (λ x, f x w = (w, Raise e)) l →
  mapM f l w = (w, Raise e).
Proof.
  induction 1 as [|x l Hx Hl IH]; [by intros ?%Exists_nil|].
  intros Hex. cbn [mapM]. rewrite M_bind_run.
  destruct Hx as [[y Hy] | Hx]; [|by rewrite Hx].
  rewrite Hy. fold (mapM f l). rewrite M_bind_run.
  apply Exists_cons in Hex as [Hex | Hex]; [congruence|].
  by rewrite IH.
Qed.

(** The whole call on valid tables: the world after it, the frame it
    returns, and how each result row comes from its invoice row. *)
Lemma reconcile_valid_records (invoice clinical : DataFrame) (w : world) :
  wf_frame invoice = true → wf_frame clinical = true →
  validate_dataframe (Some invoice) invoice_required = (true, None) →
  validate_dataframe (Some clinical) clinical_required = (true, None) →
  numeric_column invoice "Unit_Cost" = true →
  ∃ descriptions results,
    Forall2 (λ r v, r !! "Clinical_Item_Desc" = Some v)
            (rows clinical) descriptions
    ∧ Forall2 (matched scorer (this w) descriptions) (rows invoice) results
    ∧ reconcile scorer (Some invoice) (Some clinical) w
      = ({| this := this w;
            records := records w ++ [start_record invoice clinical;
                                     complete_record (length results)] |},
         Ok {| columns := result_keys; rows := results |}).
Proof.
  intros Hwf Hwfc Hinv Hclin Hnum. unfold reconcile. rewrite Hinv, Hclin.
  apply validate_dataframe_true in Hinv as (? & [= <-] & _ & Hrows & Hcols).
  apply validate_dataframe_true in Hclin as (? & [= <-] & _ & _ & Hcolsc).
  rewrite invoice_required_eq in Hcols. rewrite clinical_required_eq in Hcolsc.
  rewrite clinical_item.
  destruct (getitem_column_wf clinical "Clinical_Item_Desc")
    as (descs & Hdescs & Hcells); [done|apply Hcolsc; by left|].
  cbn [negb deref].
  set (w1 := logged INFO (start_record invoice clinical).2 w).
  destruct (mapM_M_Forall2 (reconcile_row scorer descs)
              (matched scorer (this w) descs) (rows invoice) w1)
    as (results & Hmap & Hres).
  { apply Forall_forall. intros r Hr.
    destruct (wf_frame_lookup invoice r "PO_Number") as [po Hpo];
      [done|done|apply Hcols; by left|].
    destruct (wf_frame_lookup invoice r "Vendor_Item_Name") as [item Hitem];
      [done|done|apply Hcols; by right; left|].
    destruct (numeric_column_lookup invoice "Unit_Cost" r) as [z Hz];
      [done|done|].
    destruct (fuzzy_match_item_total scorer item descs)
      as (name & score & Hmatch).
    eexists. split; [by eapply reconcile_row_record|].
    by exists po, item, name, score, z. }
  exists descs, results. split; [done|]. split; [done|]. subst w1.
  run_M. rewrite Hdescs. run_M. unfold start_record in Hmap. simpl in Hmap.
  rewrite Hmap. run_M. unfold logged, DataFrame_of_records, len. simpl.
  rewrite <-app_assoc. simpl. do 2 f_equal.
  destruct results; [|done]. apply Forall2_nil_inv_r in Hres.
  unfold empty in Hrows. rewrite Hres in Hrows. by destruct (columns invoice).
Qed.

End ReconcileMore.

(** X10. On valid tables, result row [i] is made from invoice row [i] alone
    and the whole column of clinical descriptions: its match and score are
    those of [fuzzy_match_item] on that list, its status and tier those of
    [classify_risk] on that score, and its cost columns those of the
    invoice row. *)
Theorem reconcile_rows_matched (scorer : string → string → Z)
    (invoice clinical : DataFrame) (w : world) :
  wf_frame invoice = true → wf_frame clinical = true →
  validate_dataframe (Some invoice) invoice_required = (true, None) →
  validate_dataframe (Some clinical) clinical_required = (true, None) →
  numeric_column invoice "Unit_Cost" = true →
  ∃ descriptions out,
    Forall2 (λ r v, r !! "Clinical_Item_Desc" = Some v)
            (rows clinical) descriptions
    ∧ (reconcile scorer (Some invoice) (Some clinical) w).2 = Ok out
    ∧ ∀ i r, rows invoice !! i = Some r →
        ∃ o, rows out !! i = Some o
             ∧ matched scorer (this w) descriptions r o.
Proof.
  intros Hwf Hwfc Hinv Hclin Hnum.
  destruct (reconcile_valid_records scorer invoice clinical w)
    as (descs & results & Hdescs & Hres & ->); try done.
  exists descs, {| columns := result_keys; rows := results |}.
  split; [done|]. split; [done|]. intros i r Hr.
  by eapply Forall2_lookup_l.
Qed.

Lemma reconcile_rows_matched_witness :
  ∃ descriptions out,
    Forall2 (λ r v, r !! "Clinical_Item_Desc" = Some v)
            (rows sample_clinical) descriptions
    ∧ (reconcile word_scorer (Some sample_invoices) (Some sample_clinical)
         (init 70 [])).2 = Ok out
    ∧ ∀ i r, rows sample_invoices !! i = Some r →
        ∃ o, rows out !! i = Some o
             ∧ matched word_scorer (this (init 70 [])) descriptions r o.
Proof. apply reconcile_rows_matched; by vm_compute. Defined.

Lemma result_record_dom (engine : ReconciliationEngine)
    (po item name : value) (score cost : Z) :
  dom (result_record engine po item name score cost)
  = list_to_set result_keys.
Proof.
  unfold result_record, result_keys.
  rewrite !dom_insert_L, dom_empty_L. simpl.
  by rewrite !(assoc_L (∪)).
Qed.

(** X11. On valid tables the frame that [reconcile] returns has the nine
    output columns, in the order of the dictionary literal, and each of its
    rows has a cell for each of them and no other. *)
Theorem reconcile_frame_shape (scorer : string → string → Z)
    (invoice clinical : DataFrame) (w : world) :
  wf_frame invoice = true → wf_frame clinical = true →
  validate_dataframe (Some invoice) invoice_required = (true, None) →
  validate_dataframe (Some clinical) clinical_required = (true, None) →
  numeric_column invoice "Unit_Cost" = true →
  ∃ out,
    (reconcile scorer (Some invoice) (Some clinical) w).2 = Ok out
    ∧ columns out
      = ["PO_Number"; "Vendor_Item"; "Clinical_Match"; "Confidence_Score";
         "Confidence_Score_Numeric"; "Unit_Cost"; "Cost_At_Risk"; "Status";
         "Risk_Level"]
    ∧ wf_frame out = true.
Proof.
  intros Hwf Hwfc Hinv Hclin Hnum.
  destruct (reconcile_valid_records scorer invoice clinical w)
    as (descs & results & Hdescs & Hres & ->); try done.
  eexists. split; [done|]. split; [done|].
  unfold wf_frame. simpl. apply forallb_forall.
  intros o Ho%list_elem_of_In. apply list_elem_of_lookup in Ho as [i Hi].
  destruct (Forall2_lookup_r _ _ _ _ _ Hres Hi)
    as (r & _ & po & item & name & score & cost & _ & _ & _ & _ & ->).
  apply bool_decide_eq_true, result_record_dom.
Qed.

Lemma reconcile_frame_shape_witness :
  ∃ out,
    (reconcile word_scorer (Some sample_invoices) (Some sample_clinical)
       (init 70 [])).2 = Ok out
    ∧ columns out
      = ["PO_Number"; "Vendor_Item"; "Clinical_Match"; "Confidence_Score";
         "Confidence_Score_Numeric"; "Unit_Cost"; "Cost_At_Risk"; "Status";
         "Risk_Level"]
    ∧ wf_frame out = true.
Proof. apply reconcile_frame_shape; by vm_compute. Defined.

(** X12. On valid tables a call of [reconcile] logs two records and no
    more, whatever the number of rows: the start, with the numbers of
    invoice rows and of clinical rows, and the end, with the number of
    invoice rows again. *)
Theorem reconcile_log (scorer : string → string → Z)
    (invoice clinical : DataFrame) (w : world) :
  wf_frame invoice = true → wf_frame clinical = true →
  validate_dataframe (Some invoice) invoice_required = (true, None) →
  validate_dataframe (Some clinical) clinical_required = (true, None) →
  numeric_column invoice "Unit_Cost" = true →
  records (reconcile scorer (Some invoice) (Some clinical) w).1
  = records w ++ [start_record invoice clinical;
                  complete_record (len invoice)].
Proof.
  intros Hwf Hwfc Hinv Hclin Hnum.
  destruct (reconcile_valid_records scorer invoice clinical w)
    as (descs & results & Hdescs & Hres & ->); try done.
  simpl. unfold len. by rewrite (Forall2_length _ _ _ Hres).
Qed.

Lemma reconcile_log_witness :
  records (reconcile word_scorer (Some sample_invoices) (Some sample_clinical)
             (init 70 [])).1
  = records (init 70 []) ++ [start_record sample_invoices sample_clinical;
                             complete_record (len sample_invoices)].
Proof. apply reconcile_log; by vm_compute. Defined.

(** X13. The loop has no recovery: when the tables pass validation and one
    invoice row has text for its cost, [reconcile] raises a [ValueError]
    after it logged the start; no result row comes out, not even for the
    rows before. *)
Theorem reconcile_text_cost (scorer : string → string → Z)
    (invoice clinical : DataFrame) (w : world) :
  wf_frame invoice = true → wf_frame clinical = true →
  validate_dataframe (Some invoice) invoice_required = (true, None) →
  validate_dataframe (Some clinical) clinical_required = (true, None) →
  Exists (λ r, ∃ s, r !! "Unit_Cost" = Some (VStr s)) (rows invoice) →
  ∃ msg,
    reconcile scorer (Some invoice) (Some clinical) w
    = ({| this := this w;
          records := records w ++ [start_record invoice clinical] |},
       Raise (ValueError msg)).
Proof.
  intros Hwf Hwfc Hinv Hclin Htext. unfold reconcile. rewrite Hinv, Hclin.
  apply validate_dataframe_true in Hinv as (? & [= <-] & _ & Hrows & Hcols).
  apply validate_dataframe_true in Hclin as (? & [= <-] & _ & _ & Hcolsc).
  rewrite invoice_required_eq in Hcols. rewrite clinical_required_eq in Hcolsc.
  rewrite clinical_item.
  destruct (getitem_column_wf clinical "Clinical_Item_Desc")
    as (descs & Hdescs & Hcells); [done|apply Hcolsc; by left|].
  cbn [negb deref]. eexists. run_M. rewrite Hdescs. run_M.
  rewrite (mapM_M_raise _ _ _ (ValueError "Cannot specify ',' with 's'.")).
  - by run_M.
  - apply Forall_forall. intros r Hr.
    destruct (wf_frame_lookup invoice r "PO_Number") as [po Hpo];
      [done|done|apply Hcols; by left|].
    destruct (wf_frame_lookup invoice r "Vendor_Item_Name") as [item Hitem];
      [done|done|apply Hcols; by right; left|].
    destruct (wf_frame_lookup invoice r "Unit_Cost") as [[s|z] Hz];
      [done|done|apply Hcols; by do 2 right; left| |].
    + right. by eapply reconcile_row_text_cost.
    + left. destruct (fuzzy_match_item_total scorer item descs)
        as (name & score & Hmatch).
      eexists. by eapply reconcile_row_record.
  - apply Exists_exists in Htext as (r & Hr & s & Hs).
    apply Exists_exists. exists r. split; [done|].
    destruct (wf_frame_lookup invoice r "PO_Number") as [po Hpo];
      [done|done|apply Hcols; by left|].
    destruct (wf_frame_lookup invoice r "Vendor_Item_Name") as [item Hitem];
      [done|done|apply Hcols; by right; left|].
    by eapply reconcile_row_text_cost.
Qed.

Lemma reconcile_text_cost_witness :
  ∃ msg,
    reconcile word_scorer (Some invoices_text_cost) (Some sample_clinical)
      (init 70 [])
    = ({| this := this (init 70 []);
          records := records (init 70 [])
                     ++ [start_record invoices_text_cost sample_clinical] |},
       Raise (ValueError msg)).
Proof.
  apply reconcile_text_cost; try by vm_compute.
  right. left. exists "n/a". by vm_compute.
Defined.

(** X14. Whatever the tables and the outcome, a call of [reconcile] leaves
    the engine as it found it, and what it returns or raises depends on
    the engine and the tables, not on what was logged before. *)
Theorem reconcile_keeps_engine (scorer : string → string → Z)
    (df_invoice df_clinical : option DataFrame) (w w' : world) :
  this (reconcile scorer df_invoice df_clinical w).1 = this w
  ∧ (this w = this w' →
       (reconcile scorer df_invoice df_clinical w).2
       = (reconcile scorer df_invoice df_clinical w').2).
Proof.
  split.
  - by apply (reconcile_engine_only scorer df_invoice df_clinical w w).
  - intros Hthis. by apply reconcile_engine_only.
Qed.

Lemma reconcile_keeps_engine_witness :
  (reconcile word_scorer (Some sample_invoices) (Some sample_clinical)
     (init 70 [])).2
  = (reconcile word_scorer (Some sample_invoices) (Some sample_clinical)
       (init 70 [(ERROR, "earlier")])).2.
Proof.
  by apply (reconcile_keeps_engine word_scorer (Some sample_invoices)
              (Some sample_clinical) (init 70 []) (init 70 [(ERROR, "earlier")])).
Defined.

Lemma reconcile_row_same (scorer : string → string → Z)
    (descriptions : list value) (r1 r2 : gmap string value) :
  same_invoice r1 r2 →
  reconcile_row scorer descriptions r1 = reconcile_row scorer descriptions r2.
Proof.
  intros (Hpo & Hitem & Hcost). unfold reconcile_row.
  rewrite invoice_po_number, invoice_vendor_item, invoice_unit_cost.
  unfold getitem. by rewrite Hpo, Hitem, Hcost.
Qed.

Lemma mapM_M_same {A B} (f : A → M B) (l1 l2 : list A) :
  Forall2 (λ a b, f a = f b) l1 l2 → mapM f l1 = mapM f l2.
Proof.
  induction 1 as [|a b l1 l2 Hab _ IH]; [done|].
  cbn [mapM]. fold (mapM f l1). fold (mapM f l2). by rewrite Hab, IH.
Qed.

(** X15. [reconcile] reads three columns of the invoice table and no
    other: two invoice tables that pass validation and agree, row by row,
    on the purchase order, the item and the cost give the same results and
    the same log. *)
Theorem reconcile_reads_three_columns (scorer : string → string → Z)
    (invoice invoice' : DataFrame) (df_clinical : option DataFrame)
    (w : world) :
  validate_dataframe (Some invoice) invoice_required = (true, None) →
  validate_dataframe (Some invoice') invoice_required = (true, None) →
  Forall2 same_invoice (rows invoice) (rows invoice') →
  reconcile scorer (Some invoice) df_clinical w
  = reconcile scorer (Some invoice') df_clinical w.
Proof.
  intros Hinv Hinv' Hsame. unfold reconcile. rewrite Hinv, Hinv'.
  destruct (validate_dataframe df_clinical clinical_required)
    as [[] err]; [|done].
  cbn [negb deref]. run_M. destruct df_clinical as [clinical|]; [|done].
  cbn [deref]. run_M. unfold len. rewrite (Forall2_length _ _ _ Hsame).
  destruct (getitem_column clinical _) as [descs|e]; [|done]. run_M.
  rewrite (mapM_M_same (reconcile_row scorer descs) (rows invoice)
             (rows invoice')); [done|].
  eapply Forall2_impl; [done|]. intros r1 r2. apply reconcile_row_same.
Qed.

Lemma reconcile_reads_three_columns_witness :
  reconcile word_scorer (Some sample_invoices) (Some sample_clinical)
    (init 70 [])
  = reconcile word_scorer (Some sample_invoices_wide) (Some sample_clinical)
      (init 70 []).
Proof.
  apply reconcile_reads_three_columns; try by vm_compute.
  repeat constructor; by vm_compute.
Defined.

(** ** The statistics: missing columns, other labels, the average *)

Lemma getitem_column_missing (df : DataFrame) (c : string) :
  c ∉ columns df → getitem_column df c = Raise (KeyError c).
Proof. intros Hnot. unfold getitem_column. by rewrite bool_decide_eq_false_2. Qed.

(** X16. [generate_summary_stats] raises a [KeyError] that names the
    column when the table has no column [Risk_Level], as the frame made
    from no record has none, or has that one and no column
    [Cost_At_Risk]. *)
Theorem generate_summary_stats_missing_column (df : DataFrame) :
  ("Risk_Level" ∉ columns df →
     generate_summary_stats df = Raise (KeyError "Risk_Level"))
  ∧ (wf_frame df = true → "Risk_Level" ∈ columns df →
     "Cost_At_Risk" ∉ columns df →
       generate_summary_stats df = Raise (KeyError "Cost_At_Risk"))
  ∧ generate_summary_stats (DataFrame_of_records result_keys [])
    = Raise (KeyError "Risk_Level").
Proof.
  unfold generate_summary_stats. rewrite risk_high, risk_medium, risk_low.
  split; [|split; [|done]].
  - intros Hnot. cbn [for_each]. unfold summarize_level, select_eq.
    by rewrite getitem_column_missing.
  - intros Hwf Hrisk Hnot. cbn [for_each]. unfold summarize_level, select_eq.
    destruct (getitem_column_wf df "Risk_Level") as (levels & -> & _);
      [done|done|].
    rewrite !result_bind_Ok. by rewrite getitem_column_missing.
Qed.

Lemma generate_summary_stats_missing_column_witness :
  generate_summary_stats sample_invoices = Raise (KeyError "Risk_Level").
Proof.
  apply (proj1 (generate_summary_stats_missing_column sample_invoices)).
  intros Hin. simpl in Hin.
  repeat (apply elem_of_cons in Hin as [Hin|Hin]; [discriminate|]).
  by apply elem_of_nil in Hin.
Defined.

Lemma summable_inv (df : DataFrame) :
  summable df = true →
  "Risk_Level" ∈ columns df ∧ "Cost_At_Risk" ∈ columns df
  ∧ Forall (λ r, summable_row r = true) (rows df).
Proof.
  unfold summable. rewrite !andb_true_iff, !bool_decide_eq_true.
  intros [[? ?] Hrows]. repeat split; try done.
  apply Forall_forall. intros r Hr. rewrite forallb_forall in Hrows.
  by apply Hrows, list_elem_of_In.
Qed.

Lemma summable_row_tier (r : gmap string value) (tier : string) :
  summable_row r = true → tier ∈ risk_tiers →
  r !! "Risk_Level" = Some (VStr tier) →
  r !! "Cost_At_Risk" = Some (VInt (cost_of r)).
Proof.
  unfold summable_row, cost_of. intros Hrow Htier Hlevel.
  rewrite Hlevel, bool_decide_eq_true_2 in Hrow by done.
  by destruct (r !! "Cost_At_Risk") as [[?|z]|].
Qed.

(** One turn of the loop on a table that may hold other labels. *)
Lemma summarize_level_summable (df : DataFrame) (tier : string)
    (summary : gmap string SummaryEntry) :
  summable df = true → tier ∈ risk_tiers →
  summarize_level df tier summary = Ok (<[tier := tier_entry df tier]> summary).
Proof.
  intros (Hrisk & Hcost & Hrows)%summable_inv Htier.
  unfold summarize_level, select_eq. destruct df as [cols rs]; simpl in *.
  rewrite (getitem_column_rows "Risk_Level" cols rs
             (λ r, default (VInt 0) (r !! "Risk_Level"))); [|done|].
  2:{ eapply Forall_impl; [done|]. intros r Hr. simpl.
      unfold summable_row in Hr. by destruct (r !! "Risk_Level"). }
  simpl.
  assert (Forall (λ r, r !! "Cost_At_Risk" = Some (VInt (cost_of r)))
            (filter (λ row, row !! "Risk_Level" = Some (VStr tier)) rs))
    as Hcosts.
  { apply Forall_forall. intros r [Hlevel Hr]%list_elem_of_filter.
    rewrite Forall_forall in Hrows.
    by eapply summable_row_tier; [apply Hrows| |]. }
  rewrite (getitem_column_rows "Cost_At_Risk" cols _ (λ r, VInt (cost_of r)))
    by done.
  simpl. rewrite (list_fmap_compose cost_of VInt), series_sum_ints. simpl.
  unfold tier_entry, tier_total, tier_rows, len. simpl.
  destruct (filter _ rs) as [|r0 rs0] eqn:Hfilter; [done|].
  rewrite bool_decide_eq_true_2 by (simpl; lia).
  rewrite series_mean_ints by done. simpl.
  by rewrite length_fmap.
Qed.

Lemma generate_summary_stats_summable (df : DataFrame) :
  summable df = true →
  generate_summary_stats df
  = Ok (<["Low" := tier_entry df "Low"]>
       (<["Medium" := tier_entry df "Medium"]>
       (<["High" := tier_entry df "High"]> ∅))).
Proof.
  intros Hdf. unfold generate_summary_stats.
  rewrite risk_high, risk_medium, risk_low. cbn [for_each].
  rewrite summarize_level_summable, result_bind_Ok by (done || by left).
  rewrite summarize_level_summable, result_bind_Ok
    by (done || by right; left).
  by rewrite summarize_level_summable, result_bind_Ok
    by (done || by do 2 right; left).
Qed.



(** *** The rounding of the average *)

Lemma round_div_error (x y : Z) :
  0 < y → 2 * Z.abs (round_div x y * y - x) ≤ y.
Proof.
  intros Hy. unfold round_div.
  pose proof (Z.div_mod x y ltac:(lia)) as Hx.
  pose proof (Z.mod_pos_bound x y Hy) as Hr.
  destruct (y <? 2 * (x mod y)) eqn:Hlt; simpl.
  - apply Z.ltb_lt in Hlt. nia.
  - apply Z.ltb_ge in Hlt.
    destruct (y =? 2 * (x mod y)) eqn:Heq; simpl.
    + apply Z.eqb_eq in Heq. destruct (Z.odd (x / y)); nia.
    + nia.
Qed.

(** The exponent that [float_div] finds is not above that of the quotient. *)
Lemma reaches_pow2_exponent (a y : Z) :
  0 < a → 0 < y →
  let k0 := Z.log2 a - Z.log2 y in
  reaches_pow2 (if reaches_pow2 k0 a y then k0 else k0 - 1) a y = true.
Proof.
  intros Ha Hy k0. destruct (reaches_pow2 k0 a y) eqn:Hk0; [done|].
  pose proof (Z.log2_spec a Ha) as [Hla _].
  pose proof (Z.log2_spec y Hy) as [_ Hly].
  pose proof (Z.log2_nonneg a). pose proof (Z.log2_nonneg y).
  unfold reaches_pow2. subst k0.
  destruct (Z.leb_spec 0 (Z.log2 a - Z.log2 y - 1)) as [Hk|Hk].
  - apply Z.leb_le.
    assert (2 ^ Z.log2 a = 2 ^ (Z.log2 a - Z.log2 y - 1) * 2 ^ Z.succ (Z.log2 y))
      as Hpow.
    { rewrite <-Z.pow_add_r by lia. f_equal. lia. }
    pose proof (Z.pow_pos_nonneg 2 (Z.log2 a - Z.log2 y - 1) ltac:(lia) Hk).
    nia.
  - apply Z.leb_le.
    assert (2 ^ Z.succ (Z.log2 y)
            = 2 ^ Z.log2 a * 2 ^ (- (Z.log2 a - Z.log2 y - 1))) as Hpow.
    { rewrite <-Z.pow_add_r by lia. f_equal. lia. }
    pose proof (Z.pow_pos_nonneg 2 (- (Z.log2 a - Z.log2 y - 1))
                  ltac:(lia) ltac:(lia)).
    nia.
Qed.

Lemma Qabs_inject_Z (z : Z) : Qabs (inject_Z z) = inject_Z (Z.abs z).
Proof. reflexivity. Qed.

Lemma inject_Z_sub (x y : Z) : inject_Z (x - y) = (inject_Z x - inject_Z y)%Q.
Proof. unfold Z.sub. by rewrite inject_Z_plus, inject_Z_opp. Qed.

Lemma float_div_error (x y : Z) :
  0 < y →
  Qle (Qabs (float_div x y * inject_Z y - inject_Z x) * inject_Z (2 ^ 53))
      (Qabs (inject_Z x)).
Proof.
  intros Hy. unfold float_div.
  destruct (Z.eqb_spec (Z.abs x) 0) as [Hzero|Hpos].
  { assert (x = 0) as -> by lia. by vm_compute. }
  assert (0 < Z.abs x) as Ha by lia.
  pose proof (reaches_pow2_exponent (Z.abs x) y Ha Hy) as Hk. simpl in Hk.
  set (k := if reaches_pow2 _ _ _ then _ else _) in *. clearbody k.
  unfold reaches_pow2 in Hk.
  destruct (Z.leb_spec 0 (k - 52)) as [He|He].
  - rewrite (proj2 (Z.leb_le 0 k)) in Hk by lia. apply Z.leb_le in Hk.
    pose proof (round_div_error (Z.abs x) (y * 2 ^ (k - 52))) as Herr.
    pose proof (Z.pow_pos_nonneg 2 (k - 52) ltac:(lia) He) as Hpow.
    specialize (Herr ltac:(nia)).
    assert (2 ^ k = 2 ^ (k - 52) * 2 ^ 52) as Hsplit.
    { rewrite <-Z.pow_add_r by lia. f_equal. lia. }
    set (m := round_div _ _) in *. clearbody m.
    rewrite <-inject_Z_mult, <-inject_Z_sub, !Qabs_inject_Z, <-inject_Z_mult.
    rewrite <-Zle_Qle.
    assert (Z.abs (Z.sgn x * (m * 2 ^ (k - 52)) * y - x)
            = Z.abs (m * (y * 2 ^ (k - 52)) - Z.abs x)) as ->.
    { destruct x; simpl; lia. }
    change (2 ^ 53) with (2 * 2 ^ 52). nia.
  - pose proof (round_div_error (Z.abs x * 2 ^ (- (k - 52))) y Hy) as Herr.
    pose proof (Z.pow_pos_nonneg 2 (- (k - 52)) ltac:(lia) ltac:(lia)) as Hpow.
    set (m := round_div _ _) in *. clearbody m.
    rewrite Qred_correct.
    assert (y * 2 ^ 52 ≤ Z.abs x * 2 ^ (- (k - 52))) as Hlow.
    { destruct (Z.leb_spec 0 k) as [Hk0|Hk0].
      - apply Z.leb_le in Hk.
        assert (2 ^ 52 = 2 ^ k * 2 ^ (- (k - 52))) as Hsplit.
        { rewrite <-Z.pow_add_r by lia. f_equal. lia. }
        pose proof (Z.pow_pos_nonneg 2 k ltac:(lia) Hk0). nia.
      - apply Z.leb_le in Hk.
        assert (2 ^ (- (k - 52)) = 2 ^ (- k) * 2 ^ 52) as Hsplit.
        { rewrite <-Z.pow_add_r by lia. f_equal. lia. }
        nia. }
    set (d := 2 ^ (- (k - 52))) in *.
    assert (Qeq ((Z.sgn x * m # Z.to_pos d) * inject_Z y - inject_Z x)
                (Z.sgn x * m * y - x * d # Z.to_pos d)) as ->.
    { unfold Qeq, Qmult, Qminus, Qplus, Qopp, inject_Z. simpl.
      rewrite !Pos2Z.inj_mul, !Z2Pos.id by lia. ring. }
    rewrite <-Zabs_Qabs, Qabs_inject_Z.
    unfold Qle, Qmult, inject_Z. simpl.
    rewrite Pos.mul_1_r, Z2Pos.id by lia.
    assert (Z.abs (Z.sgn x * m * y - x * d) = Z.abs (m * y - Z.abs x * d)) as ->.
    { destruct x; simpl; lia. }
    change (2 ^ 53) with (2 * 2 ^ 52) in *.
    rewrite Z.mul_1_r. 
    assert (Z.abs (m * y - Z.abs x * d) * (2 * 2 ^ 52) ≤ Z.abs x * d) by nia.
    nia.
Qed.

Lemma tier_entry_average (df : DataFrame) (tier : string) :
  magnitude (cost_of <$> rows df) ≤ 2 ^ 53 →
  average_fits (tier_entry df tier).
Proof.
  intros Hfit.
  assert (magnitude (cost_of <$> tier_rows df tier) ≤ 2 ^ 53) as Htier.
  { etrans; [apply magnitude_filter|done]. }
  unfold average_fits, tier_entry. cbn [avg_amount total_amount count].
  rewrite int64_sum_fits by lia.
  destruct (tier_rows df tier) as [|r rs] eqn:Hrows; [by vm_compute|].
  rewrite <-Hrows in *. 
  assert (cost_of <$> tier_rows df tier ≠ []) as Hne by (by rewrite Hrows).
  destruct (cost_of <$> tier_rows df tier) as [|z zs] eqn:Hcosts; [done|].
  rewrite <-Hcosts, float_sum_fits, length_fmap by (by rewrite Hcosts).
  apply float_div_error. rewrite Hrows. simpl. lia.
Qed.

(** X18. In each entry of the summary the average times the count is the
    total up to the rounding of the one division: as long as the
    magnitudes of the costs add up to no more than [2 ^ 53], the two
    differ by no more than the total over [2 ^ 53]; the guard makes the
    average 0 when the tier has no row. *)
Theorem generate_summary_stats_average (df : DataFrame) summary tier e :
  summable df = true →
  magnitude (cost_of <$> rows df) ≤ 2 ^ 53 →
  generate_summary_stats df = Ok summary →
  summary !! tier = Some e →
  average_fits e ∧ (count e = 0%nat → avg_amount e = Fin 0).
Proof.
  intros Hdf Hfit. rewrite (generate_summary_stats_summable df Hdf).
  intros [= <-] He.
  destruct (decide (tier = "Low")) as [->|];
    [|destruct (decide (tier = "Medium")) as [->|];
      [|destruct (decide (tier = "High")) as [->|]]];
    simplify_map_eq;
    (split; [by apply tier_entry_average|apply tier_entry_zero]).
Qed.

Lemma generate_summary_stats_average_witness :
  average_fits (tier_entry sample_results "High").
Proof.
  apply (generate_summary_stats_average sample_results
           (<["Low" := tier_entry sample_results "Low"]>
           (<["Medium" := tier_entry sample_results "Medium"]>
           (<["High" := tier_entry sample_results "High"]> ∅))) "High").
  - by vm_compute.
  - by vm_compute.
  - apply generate_summary_stats_summable. by vm_compute.
  - by simplify_map_eq.
Defined.

(** ** The financial metrics of a column *)

Lemma numeric_column_cells (df : DataFrame) (c : string) :
  numeric_column df c = true →
  Forall (λ r, r !! c = Some (VInt (cell_int c r))) (rows df).
Proof.
  intros Hnum. apply Forall_forall. intros r Hr.
  destruct (numeric_column_lookup df c r Hnum Hr) as [z Hz].
  unfold cell_int. by rewrite Hz.
Qed.

Lemma getitem_column_numeric (df : DataFrame) (c : string) :
  c ∈ columns df → numeric_column df c = true →
  getitem_column df c = Ok (VInt <$> (cell_int c <$> rows df)).
Proof.
  intros Hc Hnum. destruct df as [cols rs].
  rewrite (getitem_column_rows c cols rs (λ r, VInt (cell_int c r)));
    [by rewrite (list_fmap_compose (cell_int c) VInt)|done|].
  by apply (numeric_column_cells {| columns := cols; rows := rs |}).
Qed.

(** X19. On a column of numbers whose magnitudes add up to no more than
    [2 ^ 53], [calculate_financial_metrics] logs nothing and returns the
    sum, the number of rows and the [float] nearest to their quotient; on
    a table with no row the average is not-a-number, not 0: the guard of
    [generate_summary_stats] is not repeated here. *)
Theorem calculate_financial_metrics_numeric (df : DataFrame) (c : string)
    (w : world) :
  c ∈ columns df → numeric_column df c = true →
  magnitude (cell_int c <$> rows df) ≤ 2 ^ 53 →
  calculate_financial_metrics df c w
  = (w, Ok {| fm_total_amount := VInt (sum_Z (cell_int c <$> rows df));
              fm_count := len df;
              fm_average_amount :=
                match rows df with
                | [] => NaN
                | _ => Fin (float_div (sum_Z (cell_int c <$> rows df))
                                      (Z.of_nat (len df)))
                end |}).
Proof.
  intros Hc Hnum Hfit.
  unfold calculate_financial_metrics, financial_metrics_try.
  rewrite (getitem_column_numeric df c Hc Hnum), !result_bind_Ok.
  rewrite series_sum_ints, !result_bind_Ok. unfold len.
  rewrite int64_sum_fits by lia.
  destruct (rows df) as [|r rs] eqn:Hrows; [done|].
  rewrite series_mean_ints by done. rewrite result_bind_Ok.
  by rewrite float_sum_fits, !length_fmap.
Qed.

Lemma calculate_financial_metrics_numeric_witness :
  calculate_financial_metrics sample_results "Cost_At_Risk" (init 70 [])
  = (init 70 [],
     Ok {| fm_total_amount := VInt 6000; fm_count := 3;
           fm_average_amount := Fin 2000 |}).
Proof.
  rewrite (calculate_financial_metrics_numeric sample_results "Cost_At_Risk");
    [done| |by vm_compute|by vm_compute].
  simpl. by right; left.
Defined.

(** X20. When the table has no such column, [calculate_financial_metrics]
    does not raise: it logs one error that quotes the column and returns
    the entry of zeros. *)
Theorem calculate_financial_metrics_missing (df : DataFrame) (c : string)
    (w : world) :
  plain_name c = true → c ∉ columns df →
  calculate_financial_metrics df c w
  = (logged ERROR ("Error calculating financial metrics: '" +:+ c +:+ "'") w,
     Ok zero_metrics).
Proof.
  intros _ Hnot. unfold calculate_financial_metrics, financial_metrics_try.
  rewrite getitem_column_missing by done. by run_M.
Qed.

Lemma calculate_financial_metrics_missing_witness :
  calculate_financial_metrics sample_results "Unit_Cost" (init 70 [])
  = (logged ERROR "Error calculating financial metrics: 'Unit_Cost'"
       (init 70 []),
     Ok zero_metrics).
Proof.
  apply (calculate_financial_metrics_missing sample_results "Unit_Cost");
    [reflexivity|].
  intros Hin. simpl in Hin.
  repeat (apply elem_of_cons in Hin as [Hin|Hin]; [discriminate|]).
  by apply elem_of_nil in Hin.
Defined.

(** ** The currency format *)

Lemma strip_commas_id (s : string) : no_comma s = true → strip_commas s = s.
Proof.
  unfold no_comma. induction s as [|c s IH]; [done|].
  cbn [Text.all_chars strip_commas]. intros [Hc Hs]%andb_true_iff.
  apply negb_true_iff in Hc. by rewrite Hc, IH.
Qed.

Lemma strip_commas_app (s t : string) :
  strip_commas (s +:+ t) = strip_commas s +:+ strip_commas t.
Proof.
  induction s as [|c s IH]; [done|].
  rewrite append_cons. cbn [strip_commas]. rewrite IH.
  by destruct (bool_decide (c = ","%char)).
Qed.

Lemma rev_app_spec (s a b : string) :
  String.rev_app (String.rev_app s a) b = String.rev_app a (s +:+ b).
Proof.
  revert a. induction s as [|c s IH]; intros a; [done|].
  cbn [String.rev_app]. by rewrite IH.
Qed.

Lemma rev_involutive (s : string) : String.rev (String.rev s) = s.
Proof. unfold String.rev. by rewrite rev_app_spec, append_nil_r. Qed.

Lemma strip_commas_rev_app (s acc : string) :
  strip_commas (String.rev_app s acc)
  = String.rev_app (strip_commas s) (strip_commas acc).
Proof.
  revert acc. induction s as [|c s IH]; intros acc; [done|].
  cbn [String.rev_app strip_commas]. rewrite IH. cbn [strip_commas].
  by destruct (bool_decide (c = ","%char)).
Qed.

Lemma strip_commas_rev (s : string) :
  strip_commas (String.rev s) = String.rev (strip_commas s).
Proof. unfold String.rev. by rewrite strip_commas_rev_app. Qed.

Lemma no_comma_rev_app (s acc : string) :
  no_comma s = true → no_comma acc = true →
  no_comma (String.rev_app s acc) = true.
Proof.
  unfold no_comma. revert acc. induction s as [|c s IH]; intros acc; [done|].
  cbn [Text.all_chars String.rev_app]. intros [Hc Hs]%andb_true_iff Hacc.
  apply IH; [done|]. cbn [Text.all_chars]. by rewrite Hc, Hacc.
Qed.

Lemma group3_rev_separator (d d' : ascii) (rest : string) :
  group3_rev 2 (String d (String d' rest))
  = String d (String "," (group3_rev 0 (String d' rest))).
Proof. reflexivity. Qed.

Lemma group3_rev_plain (k : nat) (d : ascii) (rest : string) :
  k ≠ 2%nat ∨ rest = "" →
  group3_rev k (String d rest) = String d (group3_rev (S k) rest).
Proof.
  intros [Hk | ->].
  - by destruct k as [|[|[|k]]], rest.
  - by destruct k as [|[|[|k]]].
Qed.

(** The separators come off the grouped digits. *)
Lemma strip_commas_group3 (k : nat) (digits : string) :
  no_comma digits = true → strip_commas (group3_rev k digits) = digits.
Proof.
  unfold no_comma. revert k.
  induction digits as [|d rest IH]; intros k; [done|].
  cbn [Text.all_chars]. intros [Hd Hrest]%andb_true_iff.
  apply negb_true_iff in Hd.
  destruct (decide (k = 2%nat)) as [->|Hk].
  - destruct rest as [|d' rest'].
    + rewrite group3_rev_plain by (by right). cbn [strip_commas].
      by rewrite Hd.
    + rewrite group3_rev_separator. cbn [strip_commas]. rewrite Hd.
      rewrite bool_decide_eq_true_2 by done. by rewrite IH.
  - rewrite group3_rev_plain by (by left). cbn [strip_commas].
    by rewrite Hd, IH.
Qed.

(** The decimal digits that stdpp writes hold no comma. *)
Lemma no_comma_pretty_N_go (x : N) (s : string) :
  no_comma s = true → no_comma (pretty_N_go x s) = true.
Proof.
  revert s. induction (N.lt_wf_0 x) as [x _ IH]; intros s Hs.
  destruct (decide (x = 0)%N) as [->|Hx]; [by rewrite pretty_N_go_0|].
  rewrite pretty_N_go_step by lia. apply IH.
  - apply N.div_lt; lia.
  - unfold no_comma. cbn [Text.all_chars]. fold (no_comma s). rewrite Hs.
    unfold pretty_N_char. by repeat case_match.
Qed.

Lemma no_comma_pretty_abs (z : Z) : no_comma (pretty (Z.abs z)) = true.
Proof.
  assert (∀ p : positive, no_comma (pretty p) = true) as Hpos.
  { intros p. unfold pretty, pretty_positive, pretty, pretty_N.
    case_decide; [done|]. by apply no_comma_pretty_N_go. }
  destruct z as [|p|p]; [done|apply Hpos|apply Hpos].
Qed.

Lemma pretty_sign_abs (z : Z) :
  (if z <? 0 then "-" else "") +:+ pretty (Z.abs z) = pretty z.
Proof. by destruct z. Qed.

(** The [float] of a whole number has its sign. *)
Lemma float_of_int_sign (z : Z) : (float_of_int z <? 0) = (z <? 0).
Proof.
  unfold float_of_int.
  set (e := Z.max 0 (Z.log2 (Z.abs z) - 52)).
  destruct (decide (z = 0)) as [-> | Hz]; [done|].
  assert (0 < Z.abs z) as Ha by lia.
  pose proof (Z.log2_spec _ Ha) as [Hlog _].
  pose proof (Z.log2_nonneg (Z.abs z)) as Hnn.
  assert (0 < 2 ^ e) as Hpow by (apply Z.pow_pos_nonneg; lia).
  assert (2 ^ e ≤ Z.abs z) as Hle.
  { etrans; [|exact Hlog]. apply Z.pow_le_mono_r; lia. }
  assert (1 ≤ Z.abs z / 2 ^ e) as Hq.
  { apply Z.div_le_lower_bound; lia. }
  assert (1 ≤ round_div (Z.abs z) (2 ^ e)) as Hm.
  { unfold round_div. by destruct (_ || _); lia. }
  destruct z as [|p|p]; [done| |].
  - apply Z.ltb_ge. cbn [Z.sgn]. nia.
  - transitivity true; [|done]. apply Z.ltb_lt. cbn [Z.sgn]. nia.
Qed.

(** X21. The format of an amount is a dollar sign, the amount in decimal
    with separators, and two zero decimals.  The amount goes through a
    [float]: once the commas are taken out, what is left of
    [f"{amount:,.2f}"] is the plain decimal writing of the nearest
    [float], followed by ".00"; up to [2 ^ 53] that is the amount
    itself. *)
Theorem format_currency_digits (z : Z) :
  format_currency (VInt z) = Ok ("$" +:+ format_grouped z)
  ∧ strip_commas (format_grouped z) = pretty (float_of_int z) +:+ ".00"
  ∧ (Z.abs z ≤ 2 ^ 53 →
       strip_commas (format_grouped z) = pretty z +:+ ".00")
  ∧ ∀ s, ∃ e, format_currency (VStr s) = Raise e.
Proof.
  assert (strip_commas (format_grouped z)
          = pretty (float_of_int z) +:+ ".00") as Hdigits.
  { unfold format_grouped.
    rewrite !strip_commas_app, strip_commas_rev.
    rewrite strip_commas_group3.
    2:{ apply no_comma_rev_app; [apply no_comma_pretty_abs|done]. }
    rewrite rev_involutive.
    rewrite (strip_commas_id ".00") by done.
    rewrite (strip_commas_id (if z <? 0 then "-" else ""))
      by (by destruct (z <? 0)).
    rewrite <-(float_of_int_sign z).
    by rewrite <-(pretty_sign_abs (float_of_int z)), append_assoc. }
  split; [done|]. split; [done|]. split; [|by eexists].
  intros Hz. by rewrite Hdigits, float_of_int_small.
Qed.

Lemma format_currency_digits_witness :
  Z.abs 1234567 ≤ 2 ^ 53
  ∧ strip_commas (format_grouped 1234567) = "1234567.00"
  ∧ strip_commas (format_grouped 9007199254740993) = "9007199254740992.00".
Proof.
  split; [by vm_compute|]. split.
  - apply (format_currency_digits 1234567). by vm_compute.
  - by rewrite (proj1 (proj2 (format_currency_digits 9007199254740993))).
Defined.

(** A separator stands at each fourth place of the grouped digits,
    counted from the unit, and at no other. *)
Lemma group3_rev_commas (k : nat) (digits : string) (i : nat) (c : ascii) :
  (k ≤ 2)%nat → no_comma digits = true →
  String.get i (group3_rev k digits) = Some c →
  c = ","%char ↔ ((i + k) `mod` 4 = 3)%nat.
Proof.
  unfold no_comma. revert k i.
  induction digits as [|d rest IH]; intros k i Hk; [done|].
  cbn [Text.all_chars]. intros [Hd Hrest]%andb_true_iff.
  apply negb_true_iff, bool_decide_eq_false in Hd.
  destruct (decide (k = 2%nat)) as [->|Hk2].
  - destruct rest as [|d' rest'].
    + rewrite group3_rev_plain by (by right).
      destruct i as [|i]; [|done]. intros [= <-]. by split.
    + rewrite group3_rev_separator.
      destruct i as [|[|i]]; cbn [String.get].
      * intros [= <-]. by split.
      * intros [= <-]. by split.
      * intros Hget. rewrite (IH 0%nat i) by (done || lia).
        replace (S (S i) + 2)%nat with (i + 0 + 1 * 4)%nat by lia.
        by rewrite Nat.Div0.mod_add.
  - rewrite group3_rev_plain by (by left).
    destruct i as [|i]; cbn [String.get].
    + intros [= <-]. split; [done|].
      rewrite Nat.add_0_l, Nat.mod_small by lia. lia.
    + intros Hget. rewrite (IH (S k) i) by (done || lia).
      by replace (S i + k)%nat with (i + S k)%nat by lia.
Qed.

(** No separator stands before the leading digit. *)
Lemma group3_rev_last (k : nat) (digits : string) (c : ascii) :
  no_comma digits = true →
  String.get (String.length (group3_rev k digits) - 1) (group3_rev k digits)
  = Some c →
  c ≠ ","%char.
Proof.
  unfold no_comma. revert k.
  induction digits as [|d rest IH]; intros k; [done|].
  cbn [Text.all_chars]. intros [Hd Hrest]%andb_true_iff.
  apply negb_true_iff, bool_decide_eq_false in Hd.
  assert (∀ k' g, g = group3_rev k' rest → rest ≠ "" →
            String.get (String.length g) (String d g) = Some c →
            c ≠ ","%char) as Hstep.
  { intros k' g -> Hrest'.
    destruct (group3_rev k' rest) as [|a g] eqn:Hg.
    { destruct rest as [|d' rest']; [done|].
      destruct (decide (k' = 2%nat)) as [->|Hk'].
      - destruct rest'; [by rewrite group3_rev_plain in Hg by (by right)|].
        by rewrite group3_rev_separator in Hg.
      - by rewrite group3_rev_plain in Hg by (by left). }
    cbn [String.length String.get]. intros Hget.
    apply (IH k'); [done|]. rewrite Hg. cbn [String.length].
    by rewrite Nat.sub_1_r. }
  destruct (decide (k = 2%nat)) as [->|Hk2].
  - destruct rest as [|d' rest'].
    + rewrite group3_rev_plain by (by right). by intros [= <-].
    + rewrite group3_rev_separator. cbn [String.length].
      rewrite Nat.sub_1_r. cbn [Nat.pred String.get].
      destruct (String.length (group3_rev 0 (String d' rest'))) as [|n] eqn:Hn.
      { by rewrite group3_rev_plain in Hn by (by left). }
      intros Hget. apply (IH 0%nat); [done|]. rewrite Hn.
      by rewrite Nat.sub_1_r.
  - rewrite group3_rev_plain by (by left).
    destruct rest as [|d' rest'].
    + by intros [= <-].
    + cbn [String.length]. rewrite Nat.sub_1_r. cbn [Nat.pred].
      by apply (Hstep (S k)).
Qed.

(** X22. In the format of an amount the separators stand in the whole part
    at each fourth place counted from the unit, and nowhere else; the
    leading place is a digit. *)
Theorem format_grouped_separators (z : Z) :
  ∃ places,
    format_grouped z
    = (if z <? 0 then "-" else "") +:+ String.rev places +:+ ".00"
    ∧ (∀ i c, String.get i places = Some c →
         c = ","%char ↔ (i `mod` 4 = 3)%nat)
    ∧ (∀ c, String.get (String.length places - 1) places = Some c →
         c ≠ ","%char).
Proof.
  exists (group3_rev 0 (String.rev (pretty (Z.abs (float_of_int z))))).
  assert (no_comma (String.rev (pretty (Z.abs (float_of_int z)))) = true)
    as Hdigits
    by (apply no_comma_rev_app; [apply no_comma_pretty_abs|done]).
  split; [done|]. split.
  - intros i c Hget.
    rewrite (group3_rev_commas 0 _ i c) by (done || lia).
    by rewrite Nat.add_0_r.
  - intros c. by apply group3_rev_last.
Qed.

Lemma format_grouped_separators_witness :
  ∃ places,
    format_grouped 1234567
    = "" +:+ String.rev places +:+ ".00"
    ∧ (∀ i c, String.get i places = Some c →
         c = ","%char ↔ (i `mod` 4 = 3)%nat)
    ∧ (∀ c, String.get (String.length places - 1) places = Some c →
         c ≠ ","%char).
Proof. apply (format_grouped_separators 1234567). Defined.

(** ** The analysis of the application *)





Lemma select_eq_summable (df : DataFrame) (tier : string) :
  summable df = true →
  select_eq df "Risk_Level" (VStr tier)
  = Ok {| columns := columns df; rows := tier_rows df tier |}.
Proof.
  intros (Hrisk & _ & Hrows)%summable_inv. unfold select_eq.
  destruct df as [cols rs]; simpl in *.
  rewrite (getitem_column_rows "Risk_Level" cols rs
             (λ r, default (VInt 0) (r !! "Risk_Level"))); [done|done|].
  eapply Forall_impl; [done|]. intros r Hr. simpl.
  unfold summable_row in Hr. by destruct (r !! "Risk_Level").
Qed.

(** X24. The filter of the report and the summary agree: the view that an
    option of one tier shows has the columns of the results and as many
    rows as the entry of that tier counts; any other option shows all the
    results. *)
Theorem apply_filter_counts (df_results : DataFrame)
    (filter_option tier : string) :
  summable df_results = true →
  ((filter_option, tier) ∈ filter_tiers →
     ∃ view summary e,
       apply_filter filter_option df_results = Ok view
       ∧ columns view = columns df_results
       ∧ generate_summary_stats df_results = Ok summary
       ∧ summary !! tier = Some e
       ∧ len view = count e)
  ∧ (filter_option ∉ filter_tiers.*1 →
       apply_filter filter_option df_results = Ok df_results).
Proof.
  intros Hdf. split.
  - intros Hin. rewrite (generate_summary_stats_summable df_results Hdf).
    unfold apply_filter. rewrite risk_high, risk_medium, risk_low.
    unfold filter_tiers in Hin.
    apply elem_of_cons in Hin as [[= -> ->] | Hin];
      [|apply elem_of_cons in Hin as [[= -> ->] | Hin];
        [|apply list_elem_of_singleton in Hin as [= -> ->]]];
      simpl; rewrite select_eq_summable by done;
      eexists _, _, _; (split; [done|]); (split; [done|]);
      (split; [done|]); (split; [by simplify_map_eq|]); done.
  - intros Hnot. unfold apply_filter. simpl in Hnot.
    rewrite !bool_decide_eq_false_2; [done|..];
      intros ->; apply Hnot; repeat first [by left | right].
Qed.

Lemma apply_filter_counts_witness :
  (∃ view summary e,
     apply_filter "High Risk Only" sample_results = Ok view
     ∧ columns view = columns sample_results
     ∧ generate_summary_stats sample_results = Ok summary
     ∧ summary !! "High" = Some e
     ∧ len view = count e)
  ∧ apply_filter "All Items" sample_results = Ok sample_results.
Proof.
  split.
  - apply (apply_filter_counts sample_results "High Risk Only" "High");
      [by vm_compute|by left].
  - apply (apply_filter_counts sample_results "All Items" "High");
      [by vm_compute|].
    intros Hin. simpl in Hin.
    repeat (apply elem_of_cons in Hin as [Hin|Hin]; [discriminate|]).
    by apply elem_of_nil in Hin.
Defined.
